(** * weather.py: a verification development

    A shallow embedding of [weather.py] (a Python 2 command line tool that
    resolves an IP address to coordinates, asks OpenWeatherMap for the current
    conditions and prints one coloured line), and theorems about it.

    Conventions of the embedding:
    - text is a Rocq [string] holding the UTF-8 bytes of the Python text;
      the patterns and tables of the program only inspect ASCII characters, so
      reading a text byte by byte or code point by code point agrees on them;
    - Python integers are [Z];
    - a computation that can raise is a [result];
    - the network, the geolocation database and the command line are the
      fields of a [world] record, and what the program does to the outside
      (requests, printed lines) is recorded in a trace of events. *)

From Stdlib Require Import ZArith List String Ascii Bool Lia QArith.
From Stdlib Require Import DecimalString DecimalZ DecimalPos DecimalN.
From stdpp Require Import gmap strings.

Local Open Scope Z_scope.

(** ** Python values, exceptions and results *)

Module Py.

(** The exceptions the program can meet. The last three are raised by the
    program itself ([sys.exit] raises [SystemExit]). *)
Inductive exn : Type :=
| KeyError
| IndexError
| TypeError
| ValueError
| OverflowError
| AttributeError
| WeatherDataException (message : string)
| IPAddressException (message : string)
| SystemExit (status : Z).

Inductive result (A : Type) : Type :=
| Ok (a : A)
| Raise (e : exn).
Arguments Ok {A} a.
Arguments Raise {A} e.

Definition bind {A B} (m : result A) (f : A -> result B) : result B :=
  match m with
  | Ok a => f a
  | Raise e => Raise e
  end.

(** [try: m except KeyError: raise h] and its like: [handler e] says what a
    caught exception is turned into, [None] lets it through. *)
Definition try_except {A} (m : result A) (handler : exn -> option (result A))
  : result A :=
  match m with
  | Ok a => Ok a
  | Raise e => match handler e with
               | Some r => r
               | None => Raise e
               end
  end.

(** The two kinds of value that reach the formatter besides the
    temperature: a text and an integer (the icon table's default). *)
Inductive value : Type :=
| Str (s : string)
| Int (z : Z).

End Py.

Export Py.

Declare Scope py_scope.
Delimit Scope py_scope with py.
Notation "'do' x <- m ; k" := (Py.bind m (fun x => k))
  (at level 10, x name, m at level 100, k at level 200) : py_scope.

(** ** Characters and decimal numerals *)

Definition in_range (lo hi c : ascii) : bool :=
  (nat_of_ascii lo <=? nat_of_ascii c)%nat && (nat_of_ascii c <=? nat_of_ascii hi)%nat.

(** [\d] without [re.UNICODE] is the set [0-9]. *)
Definition is_digit (c : ascii) : bool := in_range "0" "9" c.

Definition digit_value (c : ascii) : Z := Z.of_nat (nat_of_ascii c) - 48.

(** Value of a run of decimal digits read left to right, [None] on any other
    character. *)
Fixpoint digits_value (acc : Z) (s : string) : option Z :=
  match s with
  | EmptyString => Some acc
  | String c s' =>
      if is_digit c then digits_value (10 * acc + digit_value c) s' else None
  end.

Definition is_space (c : ascii) : bool :=
  let n := nat_of_ascii c in
  (n =? 32)%nat || ((9 <=? n)%nat && (n <=? 13)%nat).

Fixpoint lstrip (s : string) : string :=
  match s with
  | String c s' => if is_space c then lstrip s' else s
  | EmptyString => EmptyString
  end.

Fixpoint rstrip (s : string) : string :=
  match s with
  | EmptyString => EmptyString
  | String c s' =>
      match rstrip s' with
      | EmptyString => if is_space c then EmptyString else String c EmptyString
      | t => String c t
      end
  end.

Definition strip (s : string) : string := rstrip (lstrip s).

(** [int(s)] for a text [s]: surrounding white space, an optional sign and
    at least one decimal digit; anything else is a [ValueError]. *)
Definition int_of_str (s : string) : result Z :=
  let unsigned (t : string) : option Z :=
    match t with
    | EmptyString => None
    | _ => digits_value 0 t
    end in
  let signed :=
    match strip s with
    | String c t =>
        if Ascii.eqb c "-" then option_map Z.opp (unsigned t)
        else if Ascii.eqb c "+" then unsigned t
        else unsigned (String c t)
    | EmptyString => None
    end in
  match signed with
  | Some z => Ok z
  | None => Raise ValueError
  end.

(** [str(z)] and ['{0}'.format(z)] for an integer. *)
Definition str_of_int (z : Z) : string := NilEmpty.string_of_int (Z.to_int z).

(** What [format] writes for a value. *)
Definition str_of_value (v : value) : string :=
  match v with
  | Str s => s
  | Int z => str_of_int z
  end.

Definition lower_char (c : ascii) : ascii :=
  if in_range "A" "Z" c then ascii_of_nat (nat_of_ascii c + 32) else c.

(** [s.lower()] on the ASCII letters; every other byte is kept. *)
Fixpoint lower (s : string) : string :=
  match s with
  | EmptyString => EmptyString
  | String c s' => String (lower_char c) (lower s')
  end.

(** ** Regular expressions: the backtracking matcher of [re]

    [run r c] lists, in the order in which the backtracking matcher tries
    them, the cursors at which a match of [r] started at [c] can end. The
    match that [re] reports is the first of the list. *)

Module Re.

Inductive regex : Type :=
| Chr (p : ascii -> bool)      (* one character: a literal, a class, \d *)
| Cat (r1 r2 : regex)
| Alt (r1 r2 : regex)          (* r1|r2 *)
| Opt (r : regex)              (* r?, greedy *)
| Plus (r : regex)             (* r+, greedy *)
| Rep (n : nat) (r : regex)    (* r{n} *)
| Grp (r : regex)              (* (r) and (?P<name>r) *)
| Bol                          (* ^ *)
| Eol.                         (* $ *)

(** A position in the subject: the offset and the text still to read. *)
Record cursor : Type := Cursor { pos : nat; rest : string }.

Definition newline : ascii := ascii_of_nat 10.

(** [$] without [re.MULTILINE]: the end of the text, or just before a
    newline that is the last character of the text. *)
Definition at_end (s : string) : bool :=
  match s with
  | EmptyString => true
  | String c EmptyString => Ascii.eqb c newline
  | _ => false
  end.

(** [r+]: one match of [r], then as many more as possible before fewer.
    An iteration that reads nothing ends the loop, as in [re]; the fuel
    bounds the iterations by the length of the text. *)
Fixpoint plus_loop (step : cursor -> list cursor) (fuel : nat) (c0 : cursor)
  : list cursor :=
  match fuel with
  | O => []
  | S fuel' =>
      flat_map (fun c1 =>
                  (if (pos c0 <? pos c1)%nat then plus_loop step fuel' c1 else [])
                    ++ [c1])
               (step c0)
  end.

(** [r{n}] *)
Fixpoint times (step : cursor -> list cursor) (n : nat) (c0 : cursor)
  : list cursor :=
  match n with
  | O => [c0]
  | S n' => flat_map (times step n') (step c0)
  end.

Fixpoint run (r : regex) (c : cursor) : list cursor :=
  match r with
  | Chr p =>
      match rest c with
      | String a s => if p a then [Cursor (S (pos c)) s] else []
      | EmptyString => []
      end
  | Cat r1 r2 => flat_map (run r2) (run r1 c)
  | Alt r1 r2 => run r1 c ++ run r2 c
  | Opt r1 => run r1 c ++ [c]
  | Plus r1 => plus_loop (run r1) (S (String.length (rest c))) c
  | Rep n r1 => times (run r1) n c
  | Grp r1 => run r1 c
  | Bol => if (pos c =? 0)%nat then [c] else []
  | Eol => if at_end (rest c) then [c] else []
  end.

(** The text between two offsets of a subject that starts at the first. *)
Fixpoint take (n : nat) (s : string) : string :=
  match n, s with
  | S n', String a s' => String a (take n' s')
  | _, _ => EmptyString
  end.

(** [pattern.match(s)]: a match that starts at offset 0; the result is the
    matched text (group 0). *)
Definition match_ (r : regex) (s : string) : option string :=
  match run r (Cursor 0 s) with
  | c :: _ => Some (take (pos c) s)
  | [] => None
  end.

(** [pattern.search(s)]: the first offset, from the left, at which a match
    starts. *)
Fixpoint search_from (r : regex) (i : nat) (s : string) : option string :=
  match run r (Cursor i s) with
  | c :: _ => Some (take (pos c - i) s)
  | [] =>
      match s with
      | EmptyString => None
      | String _ s' => search_from r (S i) s'
      end
  end.

Definition search (r : regex) (s : string) : option string := search_from r 0 s.

Definition lit (a : ascii) : regex := Chr (Ascii.eqb a).
Definition digit : regex := Chr is_digit.
Definition range (lo hi : ascii) : regex := Chr (in_range lo hi).

End Re.

(** ** The program *)

Definition SUN : string := "☀".
Definition CLOUDS : string := "☁".
Definition RAIN : string := "☂".
Definition SNOW : string := "☃".

(** [(25[0-5]|2[0-4]\d|[0-1]?\d?\d)] *)
Definition octet_re : Re.regex :=
  Re.Grp (Re.Alt (Re.Cat (Re.lit "2") (Re.Cat (Re.lit "5") (Re.range "0" "5")))
         (Re.Alt (Re.Cat (Re.lit "2") (Re.Cat (Re.range "0" "4") Re.digit))
                 (Re.Cat (Re.Opt (Re.range "0" "1"))
                         (Re.Cat (Re.Opt Re.digit) Re.digit)))).

(** [^(25[0-5]|2[0-4]\d|[0-1]?\d?\d)(\.(25[0-5]|2[0-4]\d|[0-1]?\d?\d)){3}$] *)
Definition IPV4_RE : Re.regex :=
  Re.Cat Re.Bol
    (Re.Cat octet_re
       (Re.Cat (Re.Rep 3 (Re.Grp (Re.Cat (Re.lit ".") octet_re))) Re.Eol)).

(** [(?P<temperature>-?\d+)] *)
Definition temperature_re : Re.regex :=
  Re.Grp (Re.Cat (Re.Opt (Re.lit "-")) (Re.Plus Re.digit)).

Definition temp_color_map : list (Z * string) :=
  [(40, "cyan"); (60, "blue"); (80, "yellow")]%string.

(** The [for color in temp_color_map] loop with its fall-through [return 'red']. *)
Fixpoint color_of (t : Z) (bands : list (Z * string)) : string :=
  match bands with
  | color :: bands' => if t <=? fst color then snd color else color_of t bands'
  | [] => "red"
  end.

Definition get_temperature_color (conditions : string) : result string :=
  match Re.search temperature_re conditions with
  | Some temperature =>
      (do t <- int_of_str temperature; Ok (color_of t temp_color_map))%py
  | None => Ok "white"%string
  end.

(** ** JSON values as [response.json()] returns them *)

Module Json.

#[local] Set Warnings "-register-all".

Inductive value : Type :=
| Null
| Bool (b : bool)
| Number (z : Z)                 (* a JSON number without fraction: int *)
| Float (q : Q)                  (* a finite float, by its exact value *)
| NaN
| Infinity (negative : bool)
| Str (s : string)
| Array (items : list value)
| Object (fields : gmap string value).

(** [v[key]] for a text key. *)
Definition getitem (v : value) (key : string) : result value :=
  match v with
  | Object fields =>
      match fields !! key with
      | Some x => Ok x
      | None => Raise KeyError
      end
  | _ => Raise TypeError
  end.

(** [v[0]]. The keys of a JSON object are texts, so no object has the
    key [0]. *)
Definition getitem0 (v : value) : result value :=
  match v with
  | Array (x :: _) => Ok x
  | Array [] => Raise IndexError
  | Object _ => Raise KeyError
  | Str (String a _) => Ok (Str (String a EmptyString))
  | Str EmptyString => Raise IndexError
  | _ => Raise TypeError
  end.

(** [int(v)]; a float is truncated towards zero. *)
Definition int (v : value) : result Z :=
  match v with
  | Number z => Ok z
  | Float q => Ok (Z.quot (Qnum q) (Z.pos (Qden q)))
  | Bool b => Ok (if b then 1 else 0)
  | Str s => int_of_str s
  | NaN => Raise ValueError
  | Infinity _ => Raise OverflowError
  | Null | Array _ | Object _ => Raise TypeError
  end.

End Json.

(** ** [str.format]: positional fields [{0}], [{1}], ... and automatic
    fields [{}]. A field that names no argument is an [IndexError], an
    unclosed field or a stray closing brace is a [ValueError]. *)

Fixpoint format_go (args : list string) (auto : nat) (field : option string)
  (template : string) : result string :=
  match template with
  | EmptyString =>
      match field with
      | None => Ok EmptyString
      | Some _ => Raise ValueError
      end
  | String c template' =>
      match field with
      | None =>
          if Ascii.eqb c "{" then format_go args auto (Some EmptyString) template'
          else if Ascii.eqb c "}" then Raise ValueError
          else (do r <- format_go args auto None template'; Ok (String c r))%py
      | Some name =>
          if Ascii.eqb c "}" then
            let index :=
              match name with
              | EmptyString => Some (auto, S auto)
              | _ => option_map (fun z => (Z.to_nat z, auto)) (digits_value 0 name)
              end in
            match index with
            | None => Raise ValueError
            | Some (i, auto') =>
                match nth_error args i with
                | Some a =>
                    (do r <- format_go args auto' None template'; Ok (a +:+ r))%py
                | None => Raise IndexError
                end
            end
          else format_go args auto (Some (name +:+ String c EmptyString)) template'
      end
  end.

Definition format (template : string) (args : list string) : result string :=
  format_go args 0 None template.

(** ** [TextFormatter] *)

(** The [context] dictionary that [OpenWeatherMap.now] fills: its three keys. *)
Record context : Type := Context {
  temp : Z;
  conditions : Json.value;
  icon : Py.value
}.

Module TextFormatter.

(** [context['conditions'].lower()]: only a text has the method. *)
Definition lower_method (v : Json.value) : result string :=
  match v with
  | Json.Str s => Ok (lower s)
  | _ => Raise AttributeError
  end.

Definition output (ctx : context) : result string :=
  (do c <- lower_method (conditions ctx);
   format "Today it's {0}° {1} and {2}"
          [str_of_int (temp ctx); str_of_value (icon ctx); c])%py.

End TextFormatter.

(** ** The outside world and the trace of what the program does to it *)

(** A response of [requests.get]: its [text], and what [response.json()]
    gives ([None] when the body is not JSON and the call raises
    [ValueError]). *)
Record response : Type := Response {
  text : string;
  json : option Json.value
}.

(** The [params] of the weather request. *)
Record payload : Type := Payload {
  lat : Q;
  lon : Q;
  units : string
}.

Inductive event : Type :=
| Get (url : string) (params : option payload)   (* requests.get *)
| Puts (color line : string)                      (* puts(colored.<color>(line)) *)
| PrintStderr (line : string).                    (* print >> sys.stderr, line *)

(** What a run of the program is given: the command line after the program
    name, the answers of the network, and the geolocation database, which
    answers a match with its [location] or no match. An address that is
    Python's [None] is [None]. Every request is answered: the transport
    errors of [requests], which the program lets through, are outside the
    model. *)
Record world : Type := World {
  argv : list string;
  requests_get : string -> option payload -> response;
  geolite2_lookup : option string -> option (Q * Q)
}.

(** A computation that may raise and that leaves a trace of events. *)
Module IO.

Definition io (A : Type) : Type := (list event * result A)%type.

Definition ret {A} (a : A) : io A := ([], Ok a).
Definition raise {A} (e : exn) : io A := ([], Raise e).
Definition lift {A} (r : result A) : io A := ([], r).
Definition emit (ev : event) : io unit := ([ev], Ok tt).

Definition bind {A B} (m : io A) (f : A -> io B) : io B :=
  match m with
  | (tr, Ok a) => let '(tr', r) := f a in (tr ++ tr', r)
  | (tr, Raise e) => (tr, Raise e)
  end.

(** [try: m except ...]: [handler e] is the body of the clause that
    catches [e], [None] when no clause does. *)
Definition catch {A} (m : io A) (handler : exn -> option (io A)) : io A :=
  match m with
  | (tr, Ok a) => (tr, Ok a)
  | (tr, Raise e) =>
      match handler e with
      | Some h => let '(tr', r) := h in (tr ++ tr', r)
      | None => (tr, Raise e)
      end
  end.

Definition get (w : world) (url : string) (params : option payload)
  : io response :=
  ([Get url params], Ok (requests_get w url params)).

End IO.

Declare Scope io_scope.
Delimit Scope io_scope with io.
Notation "'do' x <- m ; k" := (IO.bind m (fun x => k))
  (at level 10, x name, m at level 100, k at level 200) : io_scope.

(** ** [OpenWeatherMap] *)

Module OpenWeatherMap.

Definition url : string := "http://api.openweathermap.org/data/2.5/weather".

Definition MAPPING_UNITS : gmap string string :=
  <["fahrenheit" := "imperial"]> (<["celsius" := "metric"]> ∅).

(** The table of [ascii_icon]. *)
Definition codes : gmap string string :=
  list_to_map
    [("01d", SUN); ("01n", SUN);
     ("02d", CLOUDS); ("02n", CLOUDS);
     ("03d", CLOUDS); ("03n", CLOUDS);
     ("04d", CLOUDS); ("04n", CLOUDS);
     ("09d", RAIN); ("09n", RAIN);
     ("10d", RAIN); ("10n", RAIN);
     ("11d", RAIN); ("11n", RAIN);
     ("13d", SNOW); ("13n", SNOW)].

(** [defaultdict(int, {...})[key]] for a text key: the entry of the table,
    or what the factory [int()] makes, the integer 0. *)
Definition defaultdict_int_get (table : gmap string string) (key : string)
  : Py.value :=
  match table !! key with
  | Some symbol => Py.Str symbol
  | None => Py.Int 0
  end.

(** [ascii_icon(code)]. A list or an object cannot be hashed; any other
    value that is not a text equals no key of the table. *)
Definition ascii_icon (code : Json.value) : result Py.value :=
  match code with
  | Json.Str s => Ok (defaultdict_int_get codes s)
  | Json.Array _ | Json.Object _ => Raise TypeError
  | _ => Ok (Py.Int 0)
  end.

(** The body of the second [try] of [now]: the three entries of
    [context], in the order of the source. *)
Definition read_context (weather : Json.value) : result context :=
  (do main <- Json.getitem weather "main";
   do t <- Json.getitem main "temp";
   do temp <- Json.int t;
   do w <- Json.getitem weather "weather";
   do w0 <- Json.getitem0 w;
   do conditions <- Json.getitem w0 "description";
   do w' <- Json.getitem weather "weather";
   do w0' <- Json.getitem0 w';
   do code <- Json.getitem w0' "icon";
   do icon <- ascii_icon code;
   Ok (Context temp conditions icon))%py.

(** What [now] does with the response once it has it. *)
Definition read_response (formatter : context -> result string)
  (r : response) : result string :=
  (do weather <-
     try_except
       (match json r with Some v => Ok v | None => Raise ValueError end)
       (fun e => match e with
                 | ValueError =>
                     Some (Raise (WeatherDataException "Incorrect json response"))
                 | _ => None
                 end);
   do ctx <-
     try_except (read_context weather)
       (fun e => match e with
                 | KeyError =>
                     Some (Raise (WeatherDataException
                                    "No conditions reported for your search"))
                 | _ => None
                 end);
   formatter ctx)%py.

Definition now (w : world) (formatter : context -> result string)
  (lat lon : Q) (units : string) : IO.io string :=
  (do mapped <-
     IO.lift (match MAPPING_UNITS !! units with
              | Some u => Ok u
              | None => Raise KeyError
              end);
   do r <- IO.get w url (Some (Payload lat lon mapped));
   IO.lift (read_response formatter r))%io.

End OpenWeatherMap.

(** ** [PublicIPAddress] *)

Module PublicIPAddress.

Definition url : string := "http://ip.42.pl/raw".

Definition validate (ip_address : string) : result bool :=
  match Re.match_ IPV4_RE ip_address with
  | None =>
      (do message <- format "Incorrect ip v4 address {}" [ip_address];
       Raise (IPAddressException message))%py
  | Some _ => Ok true
  end.

(** [resolve] returns the text when [validate] holds and falls off its end
    (Python's [None]) otherwise. *)
Definition resolve (w : world) : IO.io (option string) :=
  (do resp <- IO.get w url None;
   do valid <- IO.lift (validate (text resp));
   IO.ret (if valid then Some (text resp) else None))%io.

End PublicIPAddress.

(** ** [Arguments]: the command line

    [argparse] is modelled for the two options the program declares, each
    followed by its value in the next argument or joined to its spelling by
    [=]. Every other command line is a usage error, which ends the program
    with status 2 (abbreviated spellings, a value glued to a short option, a
    value that begins with [-] and [-h] are not modelled). *)

Module CliArguments.

Record options : Type := Options {
  ip : option string;
  units : string
}.

Definition choices : list string := ["celsius"; "fahrenheit"].

(** [default=self.units[1]] *)
Definition default_units : string := nth 1 choices "".

Definition usage_error {A} : result A := Raise (SystemExit 2).

(** A value that begins with [-] is read as an option, not as a value. *)
Definition is_value (s : string) : bool :=
  match s with
  | String "-" _ => false
  | _ => true
  end.

Definition set_units (v : string) (acc : options) : result options :=
  if existsb (String.eqb v) choices then Ok (Options (ip acc) v)
  else usage_error.

Definition strip_prefix (p s : string) : option string :=
  if String.prefix p s
  then Some (String.substring (String.length p)
                              (String.length s - String.length p) s)
  else None.

(** The value of [--option=value] or [-o=value]. *)
Definition joined_value (long short a : string) : option string :=
  match strip_prefix long a with
  | Some v => Some v
  | None => strip_prefix short a
  end.

Fixpoint parse_args (acc : options) (args : list string) : result options :=
  match args with
  | [] => Ok acc
  | a :: args' =>
      if String.eqb a "-u" || String.eqb a "--units" then
        match args' with
        | v :: args'' =>
            if is_value v
            then (do acc' <- set_units v acc; parse_args acc' args'')%py
            else usage_error
        | [] => usage_error
        end
      else if String.eqb a "-ip" || String.eqb a "--ip-address" then
        match args' with
        | v :: args'' =>
            if is_value v
            then parse_args (Options (Some v) (units acc)) args''
            else usage_error
        | [] => usage_error
        end
      else
        match joined_value "--units=" "-u=" a,
              joined_value "--ip-address=" "-ip=" a with
        | Some v, _ => (do acc' <- set_units v acc; parse_args acc' args')%py
        | None, Some v => parse_args (Options (Some v) (units acc)) args'
        | None, None => usage_error
        end
  end.

Definition parse (args : list string) : result options :=
  parse_args (Options None default_units) args.

End CliArguments.

(** ** [Weather] *)

Module Weather.

(** [not args['ip']]: no address, or an empty one. *)
Definition not_ip (a : option string) : bool :=
  match a with
  | None | Some EmptyString => true
  | Some _ => false
  end.

Definition apology (message : string) : result string :=
  format "Something bad happens({0}), Please try again later." [message].

(** The [if not args['ip'] ... else ...] of [run]: the address to look
    up, the caller's public one or the one given and validated. *)
Definition resolve_address (w : world) (ip : option string)
  : IO.io (option string) :=
  (if not_ip ip
   then PublicIPAddress.resolve w
   else
     do _ <- IO.lift (match ip with
                      | Some a => PublicIPAddress.validate a
                      | None => Raise TypeError
                      end);
     IO.ret ip)%io.

Definition run (w : world) : IO.io unit :=
  (do args <- IO.lift (CliArguments.parse (argv w));
   let formatter := TextFormatter.output in
   do ip_address <- resolve_address w (CliArguments.ip args);
   match geolite2_lookup w ip_address with
   | None => IO.raise (IPAddressException "Incorrect ip address")
   | Some location =>
       do conditions <-
         IO.catch
           (OpenWeatherMap.now w formatter (fst location) (snd location)
                               (CliArguments.units args))
           (fun exc =>
              match exc with
              | WeatherDataException message =>
                  Some (do line <- IO.lift (apology message);
                        do _ <- IO.emit (PrintStderr line);
                        IO.raise (SystemExit 1))
              | _ => None
              end);
       do color <- IO.lift (get_temperature_color conditions);
       IO.emit (Puts color conditions)
   end)%io.

(** What the operating system sees of a run. *)
Definition stdout (tr : list event) : list (string * string) :=
  flat_map (fun ev => match ev with Puts c l => [(c, l)] | _ => [] end) tr.

Definition stderr (tr : list event) : list string :=
  flat_map (fun ev => match ev with PrintStderr l => [l] | _ => [] end) tr.

Definition requested (tr : list event) : list string :=
  flat_map (fun ev => match ev with Get u _ => [u] | _ => [] end) tr.

(** The exit status of the interpreter: 0 when [run] returns, the status
    of a [SystemExit], 1 for any other exception that nothing caught. *)
Definition exit_status (r : result unit) : Z :=
  match r with
  | Ok _ => 0
  | Raise (SystemExit n) => n
  | Raise _ => 1
  end.

End Weather.


(** * Specification vocabulary

    The notions the properties below are stated with. They are written from
    the description of the program, not from its code. *)

Fixpoint all_chars (p : ascii -> bool) (s : string) : bool :=
  match s with
  | EmptyString => true
  | String c s' => p c && all_chars p s'
  end.

Definition starts_with (p : ascii -> bool) (s : string) : bool :=
  match s with
  | String c _ => p c
  | EmptyString => false
  end.

Fixpoint ends_with (p : ascii -> bool) (s : string) : bool :=
  match s with
  | EmptyString => false
  | String c EmptyString => p c
  | String _ s' => ends_with p s'
  end.

Definition not_digit (c : ascii) : bool := negb (is_digit c).
Definition is_minus (c : ascii) : bool := Ascii.eqb c "-".



(** The colour bands of the description: up to 40 cyan, up to 60 blue, up to
    80 yellow, red above. *)
Definition threshold_color (t : Z) : string :=
  if t <=? 40 then "cyan"
  else if t <=? 60 then "blue"
  else if t <=? 80 then "yellow"
  else "red".

(** [m] is the first signed integer written in [s]: [s] is [before], then
    [m], then [after]; no digit occurs in [before]; [m] is a non-empty run
    of digits with a minus sign in front when one stands there; and the run
    is not continued by a digit at the start of [after]. *)
Inductive first_signed_integer (s m : string) : Prop :=
| FirstSignedInteger (before digits after : string)
    (Hsplit : s = before +:+ m +:+ after)
    (Hbefore : all_chars not_digit before = true)
    (Hnonempty : digits <> EmptyString)
    (Hdigits : all_chars is_digit digits = true)
    (Hsign : m = "-" +:+ digits
             \/ (m = digits /\ ends_with is_minus before = false))
    (Hafter : starts_with is_digit after = false).



(** A numeral of one to three digits whose value is at most 255. *)
Definition octet (l : string) : bool :=
  (1 <=? String.length l)%nat && (String.length l <=? 3)%nat
  && match digits_value 0 l with
     | Some v => v <=? 255
     | None => false
     end.

(** [s] is a dotted quad A.B.C.D. *)
Definition dotted_quad (s : string) : Prop :=
  exists a b c d,
    octet a = true /\ octet b = true /\ octet c = true /\ octet d = true
    /\ s = a +:+ "." +:+ b +:+ "." +:+ c +:+ "." +:+ d.

(** [s] is a dotted quad followed by one newline. *)
Definition dotted_quad_newline (s : string) : Prop :=
  exists q, dotted_quad q /\ s = q +:+ String Re.newline "".

(** ** Sample inputs *)

Definition json_object (fields : list (string * Json.value)) : Json.value :=
  Json.Object (list_to_map fields).

(** [{"main": {"temp": 55}, "weather": [{"description": "light rain", "icon": "10d"}]}] *)
Definition light_rain_body : Json.value :=
  json_object
    [("main", json_object [("temp", Json.Number 55)]);
     ("weather",
      Json.Array [json_object [("description", Json.Str "light rain");
                               ("icon", Json.Str "10d")]])].

(** [{"main": {"temp": 55}, "weather": []}] *)
Definition empty_weather_body : Json.value :=
  json_object
    [("main", json_object [("temp", Json.Number 55)]);
     ("weather", Json.Array [])].

(** [{"main": {"temp": 55}}] *)
Definition no_weather_body : Json.value :=
  json_object [("main", json_object [("temp", Json.Number 55)])].

(** [{"weather": [{"description": "light rain", "icon": "10d"}]}] *)
Definition no_main_body : Json.value :=
  json_object
    [("weather",
      Json.Array [json_object [("description", Json.Str "light rain");
                               ("icon", Json.Str "10d")]])].

(** A world in which the public address service answers 8.8.8.8, the
    database places that address at (40.0, -75.0) and knows no other, and
    the weather service answers with the given body. *)
Definition sample_world (body : option Json.value) (args : list string) : world :=
  World args
        (fun url _ =>
           if String.eqb url PublicIPAddress.url
           then Response "8.8.8.8" None
           else Response "" body)
        (fun address =>
           match address with
           | Some a => if String.eqb a "8.8.8.8" then Some (40 # 1, - 75 # 1)%Q else None
           | None => None
           end).

(** The address 1.1.1.1 followed by a newline. *)
Definition address_with_newline : string :=
  "1.1.1.1" +:+ String Re.newline EmptyString.

(** An argument that spells the units option, in full or abridged. *)
Definition units_flag (a : string) : bool :=
  String.prefix "-u" a || String.prefix "--u" a.

(** ** The outcomes of a run *)

(** The colour functions of [clint.textui.colored] that the program can
    ask for. *)
Definition colors : list string := ["cyan"; "blue"; "yellow"; "red"; "white"].


(** ** Auxiliary definitions of the proofs *)

(** The part of the text that the matcher has read between two cursors. *)
Definition consumed (c0 c : Re.cursor) (l : string) : Prop :=
  Re.rest c0 = l +:+ Re.rest c /\ Re.pos c = (Re.pos c0 + String.length l)%nat.

(** The digits of a [Decimal.uint] read as [digits_value] reads a text. *)
Fixpoint uint_value (acc : Z) (d : Decimal.uint) : Z :=
  match d with
  | Decimal.Nil => acc
  | Decimal.D0 d => uint_value (10 * acc) d
  | Decimal.D1 d => uint_value (10 * acc + 1) d
  | Decimal.D2 d => uint_value (10 * acc + 2) d
  | Decimal.D3 d => uint_value (10 * acc + 3) d
  | Decimal.D4 d => uint_value (10 * acc + 4) d
  | Decimal.D5 d => uint_value (10 * acc + 5) d
  | Decimal.D6 d => uint_value (10 * acc + 6) d
  | Decimal.D7 d => uint_value (10 * acc + 7) d
  | Decimal.D8 d => uint_value (10 * acc + 8) d
  | Decimal.D9 d => uint_value (10 * acc + 9) d
  end.

(** What [p+] lists for a one-character class [p]: the longest run first. *)
Fixpoint munch (p : ascii -> bool) (i : nat) (s : string) : list Re.cursor :=
  match s with
  | String a s' =>
      if p a then munch p (S i) s' ++ [Re.Cursor (S i) s'] else []
  | EmptyString => []
  end.

(** * Properties *)

#[local] Arguments String.append : simpl nomatch.

(** ** Texts *)

Lemma append_nil_r (s : string) : s +:+ "" = s.
Proof. induction s as [|a s IH]; simpl; [reflexivity|now rewrite IH]. Qed.

Lemma append_assoc (a b c : string) : (a +:+ b) +:+ c = a +:+ b +:+ c.
Proof. induction a as [|x a IH]; simpl; [reflexivity|now rewrite IH]. Qed.

Lemma append_length (a b : string) :
  String.length (a +:+ b) = (String.length a + String.length b)%nat.
Proof. induction a as [|x a IH]; simpl; [reflexivity|now rewrite IH]. Qed.

Lemma take_append (m a : string) : Re.take (String.length m) (m +:+ a) = m.
Proof. induction m as [|x m IH]; simpl; [now destruct a|now rewrite IH]. Qed.







(** ** [format] on the templates of the program *)

Lemma format_output (a b c : string) :
  format "Today it's {0}° {1} and {2}" [a; b; c]
  = Ok ("Today it's " +:+ a +:+ "° " +:+ b +:+ " and " +:+ c).
Proof. rewrite <- (append_nil_r c) at 2. reflexivity. Qed.

Lemma format_invalid_address (a : string) :
  format "Incorrect ip v4 address {}" [a] = Ok ("Incorrect ip v4 address " +:+ a).
Proof. rewrite <- (append_nil_r a) at 2. reflexivity. Qed.

Lemma format_apology (m : string) :
  Weather.apology m
  = Ok ("Something bad happens(" +:+ m +:+ "), Please try again later.").
Proof. reflexivity. Qed.

Lemma output_text (t : Z) (ic : Py.value) (c : string) :
  TextFormatter.output (Context t (Json.Str c) ic)
  = Ok ("Today it's " +:+ str_of_int t +:+ "° " +:+ str_of_value ic
          +:+ " and " +:+ lower c).
Proof. unfold TextFormatter.output. simpl. apply format_output. Qed.


(** ** Decimal numerals *)

Lemma digits_value_string_of_uint (d : Decimal.uint) (acc : Z) :
  digits_value acc (NilEmpty.string_of_uint d) = Some (uint_value acc d).
Proof.
  revert acc. induction d; intros acc; simpl; try reflexivity;
    match goal with
    | |- context [digit_value ?c] =>
        let v := eval vm_compute in (digit_value c) in
        change (digit_value c) with v
    end;
    rewrite IHd; do 2 f_equal; lia.
Qed.

Lemma uint_value_acc (d : Decimal.uint) (p : positive) :
  uint_value (Z.pos p) d = Z.pos (Pos.of_uint_acc d p).
Proof.
  revert p. induction d; intros p; simpl; try reflexivity;
    rewrite <- IHd; f_equal; lia.
Qed.

Lemma uint_value_of_uint (d : Decimal.uint) :
  uint_value 0 d = Z.of_N (Pos.of_uint d).
Proof.
  induction d; simpl; try reflexivity; try assumption;
    apply (uint_value_acc d).
Qed.

Lemma all_digits_string_of_uint (d : Decimal.uint) :
  all_chars is_digit (NilEmpty.string_of_uint d) = true.
Proof. induction d; simpl; auto. Qed.

Lemma string_of_uint_nonempty (d : Decimal.uint) :
  d <> Decimal.Nil -> NilEmpty.string_of_uint d <> EmptyString.
Proof. destruct d; simpl; congruence. Qed.

Lemma digit_facts (c : ascii) :
  is_digit c = true ->
  is_space c = false /\ Ascii.eqb c "-" = false /\ Ascii.eqb c "+" = false.
Proof.
  destruct c as [[] [] [] [] [] [] [] []]; intros H;
    solve [discriminate H | repeat split].
Qed.

Lemma rstrip_digits (ds : string) :
  all_chars is_digit ds = true -> rstrip ds = ds.
Proof.
  induction ds as [|c ds IH]; simpl; [reflexivity|].
  intros [Hc Hds]%andb_prop. rewrite (IH Hds).
  destruct ds; [|reflexivity].
  now destruct (digit_facts c Hc) as [-> _].
Qed.

Lemma strip_digits (ds : string) :
  all_chars is_digit ds = true -> strip ds = ds.
Proof.
  intros H. unfold strip.
  replace (lstrip ds) with ds; [now apply rstrip_digits|].
  destruct ds as [|c ds]; simpl; [reflexivity|].
  simpl in H. apply andb_prop in H as [Hc _].
  now destruct (digit_facts c Hc) as [-> _].
Qed.

Lemma digits_value_all_digits (ds : string) (acc v : Z) :
  digits_value acc ds = Some v -> all_chars is_digit ds = true.
Proof.
  revert acc. induction ds as [|c ds IH]; simpl; intros acc H; [reflexivity|].
  destruct (is_digit c); [|discriminate]. simpl. eauto.
Qed.

Lemma digits_value_total (ds : string) (acc : Z) :
  all_chars is_digit ds = true -> exists v, digits_value acc ds = Some v.
Proof.
  revert acc. induction ds as [|c ds IH]; simpl; intros acc H; [eauto|].
  apply andb_prop in H as [-> H]. eauto.
Qed.

Lemma int_of_str_digits (ds : string) (v : Z) :
  ds <> EmptyString -> digits_value 0 ds = Some v -> int_of_str ds = Ok v.
Proof.
  intros Hne Hv. unfold int_of_str.
  rewrite strip_digits by eauto using digits_value_all_digits.
  destruct ds as [|c ds]; [congruence|].
  assert (Hc : is_digit c = true).
  { simpl in Hv. now destruct (is_digit c). }
  destruct (digit_facts c Hc) as (_ & -> & ->). now rewrite Hv.
Qed.

Lemma strip_minus_digits (ds : string) :
  ds <> EmptyString -> all_chars is_digit ds = true ->
  strip ("-" +:+ ds) = "-" +:+ ds.
Proof.
  intros Hne H. unfold strip. simpl.
  change (is_space "-") with false. cbv iota. 
  simpl. rewrite rstrip_digits by assumption.
  destruct ds; [congruence|reflexivity].
Qed.

Lemma int_of_str_minus_digits (ds : string) (v : Z) :
  ds <> EmptyString -> digits_value 0 ds = Some v ->
  int_of_str ("-" +:+ ds) = Ok (- v).
Proof.
  intros Hne Hv. unfold int_of_str.
  rewrite strip_minus_digits by eauto using digits_value_all_digits.
  simpl. destruct ds as [|c ds]; [congruence|]. now rewrite Hv.
Qed.

(** Printing an integer and reading it back. *)
Lemma int_of_str_of_int (z : Z) : int_of_str (str_of_int z) = Ok z.
Proof.
  unfold str_of_int. rewrite <- (DecimalZ.of_to z) at 2.
  destruct (Z.to_int z) as [d|d] eqn:E; simpl.
  - assert (d <> Decimal.Nil).
    { destruct z; simpl in E; inversion E; try discriminate;
        apply DecimalPos.Unsigned.to_uint_nonnil. }
    apply int_of_str_digits; [now apply string_of_uint_nonempty|].
    rewrite digits_value_string_of_uint, uint_value_of_uint. reflexivity.
  - assert (d <> Decimal.Nil).
    { destruct z; simpl in E; inversion E;
        apply DecimalPos.Unsigned.to_uint_nonnil. }
    change (String "-" (NilEmpty.string_of_uint d))
      with ("-" +:+ NilEmpty.string_of_uint d).
    rewrite (int_of_str_minus_digits _ (Z.of_N (Pos.of_uint d)));
      [reflexivity|now apply string_of_uint_nonempty|].
    rewrite digits_value_string_of_uint, uint_value_of_uint. reflexivity.
Qed.

(** ** The matcher on [temperature_re] *)

Lemma run_chr (p : ascii -> bool) (c : Re.cursor) :
  Re.run (Re.Chr p) c
  = match Re.rest c with
    | String a s => if p a then [Re.Cursor (S (Re.pos c)) s] else []
    | EmptyString => []
    end.
Proof. reflexivity. Qed.

Lemma run_cat (r1 r2 : Re.regex) (c : Re.cursor) :
  Re.run (Re.Cat r1 r2) c = flat_map (Re.run r2) (Re.run r1 c).
Proof. reflexivity. Qed.

Lemma run_alt (r1 r2 : Re.regex) (c : Re.cursor) :
  Re.run (Re.Alt r1 r2) c = Re.run r1 c ++ Re.run r2 c.
Proof. reflexivity. Qed.

Lemma run_opt (r : Re.regex) (c : Re.cursor) :
  Re.run (Re.Opt r) c = Re.run r c ++ [c].
Proof. reflexivity. Qed.

Lemma run_grp (r : Re.regex) (c : Re.cursor) :
  Re.run (Re.Grp r) c = Re.run r c.
Proof. reflexivity. Qed.

Lemma run_plus (r : Re.regex) (c : Re.cursor) :
  Re.run (Re.Plus r) c
  = Re.plus_loop (Re.run r) (S (String.length (Re.rest c))) c.
Proof. reflexivity. Qed.

#[local] Arguments Re.run : simpl never.
#[local] Arguments Ascii.eqb : simpl never.

Lemma plus_chr (p : ascii -> bool) (fuel i : nat) (s : string) :
  (String.length s < fuel)%nat ->
  Re.plus_loop (Re.run (Re.Chr p)) fuel (Re.Cursor i s) = munch p i s.
Proof.
  revert i s. induction fuel as [|fuel IH]; intros i s Hlen; [lia|].
  simpl. rewrite run_chr. simpl.
  destruct s as [|a s]; [reflexivity|]. simpl in *.
  destruct (p a); [|reflexivity]. simpl.
  replace (i <? S i)%nat with true by (symmetry; apply Nat.ltb_lt; lia).
  rewrite app_nil_r, IH by lia. reflexivity.
Qed.

Lemma run_plus_chr (p : ascii -> bool) (i : nat) (s : string) :
  Re.run (Re.Plus (Re.Chr p)) (Re.Cursor i s) = munch p i s.
Proof. rewrite run_plus. apply plus_chr. simpl. lia. Qed.

Lemma munch_stop (p : ascii -> bool) (i : nat) (s : string) :
  starts_with p s = false -> munch p i s = [].
Proof. destruct s as [|a s]; simpl; [reflexivity|]. now intros ->. Qed.

(** The first thing [p+] tries is the whole run. *)
Lemma munch_longest (p : ascii -> bool) (ds after : string) (i : nat) :
  ds <> EmptyString -> all_chars p ds = true -> starts_with p after = false ->
  exists tl, munch p i (ds +:+ after)
             = Re.Cursor (i + String.length ds) after :: tl.
Proof.
  revert i. induction ds as [|a ds IH]; intros i Hne Hds Hafter; [congruence|].
  simpl in Hds. apply andb_prop in Hds as [Ha Hds]. simpl. rewrite Ha.
  destruct ds as [|b ds].
  - simpl. rewrite munch_stop by assumption.
    exists []. simpl. do 2 f_equal. lia.
  - destruct (IH (S i)) as [tl Htl]; [congruence|assumption|assumption|].
    rewrite Htl. eexists. simpl. do 2 f_equal. lia.
Qed.

Lemma run_temperature_re (i : nat) (s : string) :
  Re.run temperature_re (Re.Cursor i s)
  = match s with
    | String a s' =>
        if Ascii.eqb "-" a
        then munch is_digit (S i) s' ++ munch is_digit i s
        else munch is_digit i s
    | EmptyString => []
    end.
Proof.
  unfold temperature_re, Re.lit, Re.digit.
  rewrite run_grp, run_cat, run_opt, run_chr.
  destruct s as [|a s]; cbn [Re.rest Re.pos].
  - cbn [flat_map app]. now rewrite run_plus_chr.
  - destruct (Ascii.eqb "-" a); cbn [flat_map app];
      rewrite ?run_plus_chr, ?app_nil_r; reflexivity.
Qed.

(** No match starts at a character that is neither a digit nor a minus sign
    followed by a digit. *)
Lemma temperature_re_skip (i : nat) (c : ascii) (s : string) :
  is_digit c = false ->
  is_minus c = false \/ starts_with is_digit s = false ->
  Re.run temperature_re (Re.Cursor i (String c s)) = [].
Proof.
  intros Hc H. rewrite run_temperature_re.
  assert (Hm : munch is_digit i (String c s) = []) by (simpl; now rewrite Hc).
  rewrite Hm. destruct (Ascii.eqb "-" c) eqn:E; [|reflexivity].
  destruct H as [H|H].
  - unfold is_minus in H. rewrite Ascii.eqb_sym in H. congruence.
  - now rewrite munch_stop.
Qed.

Lemma temperature_re_digits (i : nat) (ds after : string) :
  ds <> EmptyString -> all_chars is_digit ds = true ->
  starts_with is_digit after = false ->
  exists tl, Re.run temperature_re (Re.Cursor i (ds +:+ after))
             = Re.Cursor (i + String.length ds) after :: tl.
Proof.
  intros Hne Hds Hafter. rewrite run_temperature_re.
  destruct (munch_longest is_digit ds after i Hne Hds Hafter) as [tl Htl].
  destruct ds as [|a ds]; [congruence|]. simpl in *.
  apply andb_prop in Hds as [Ha _].
  destruct (digit_facts a Ha) as (_ & Hm & _).
  rewrite Ascii.eqb_sym, Hm. simpl. eauto.
Qed.

Lemma temperature_re_minus_digits (i : nat) (ds after : string) :
  ds <> EmptyString -> all_chars is_digit ds = true ->
  starts_with is_digit after = false ->
  exists tl, Re.run temperature_re (Re.Cursor i ("-" +:+ ds +:+ after))
             = Re.Cursor (i + String.length ("-" +:+ ds)) after :: tl.
Proof.
  intros Hne Hds Hafter. rewrite run_temperature_re. simpl.
  destruct (munch_longest is_digit ds after (S i) Hne Hds Hafter) as [tl Htl].
  rewrite Htl. eexists. simpl. do 2 f_equal. lia.
Qed.

Lemma search_from_hit (r : Re.regex) (i : nat) (m after : string)
  (tl : list Re.cursor) :
  Re.run r (Re.Cursor i (m +:+ after))
  = Re.Cursor (i + String.length m) after :: tl ->
  Re.search_from r i (m +:+ after) = Some m.
Proof.
  intros H. destruct (m +:+ after) eqn:E; simpl; rewrite H; simpl;
    rewrite <- E; replace (i + String.length m - i)%nat with (String.length m) by lia;
    now rewrite take_append.
Qed.

(** [search] finds the first signed integer of the text. *)
Lemma search_first_signed_integer (s m : string) :
  first_signed_integer s m -> Re.search temperature_re s = Some m.
Proof.
  intros [before ds after -> Hbefore Hne Hds Hsign Hafter].
  unfold Re.search. generalize 0%nat as i.
  induction before as [|c before IH]; intros i.
  - change ("" +:+ m +:+ after) with (m +:+ after).
    destruct Hsign as [->|[-> _]].
    + destruct (temperature_re_minus_digits i ds after) as [tl Htl]; auto.
      apply (search_from_hit _ _ ("-" +:+ ds) after tl). exact Htl.
    + destruct (temperature_re_digits i ds after) as [tl Htl]; auto.
      eapply search_from_hit; eauto.
  - simpl in Hbefore. apply andb_prop in Hbefore as [Hc Hbefore].
    apply negb_true_iff in Hc.
    assert (Hskip : Re.run temperature_re
                      (Re.Cursor i (String c (before +:+ m +:+ after))) = []).
    { apply temperature_re_skip; [assumption|].
      destruct (is_minus c) eqn:Ec; [right|now left].
      destruct before as [|b before]; simpl.
      - destruct Hsign as [->|[_ Hends]]; [reflexivity|].
        simpl in Hends. congruence.
      - simpl in Hbefore. apply andb_prop in Hbefore as [Hb _].
        now apply negb_true_iff in Hb. }
    change (String c before +:+ m +:+ after)
      with (String c (before +:+ m +:+ after)).
    cbn [Re.search_from]. rewrite Hskip. apply IH; [assumption|].
    destruct Hsign as [->|[-> Hends]]; [now left|right; split; [reflexivity|]].
    destruct before; [reflexivity|exact Hends].
Qed.

Lemma search_no_digit (s : string) :
  all_chars not_digit s = true -> Re.search temperature_re s = None.
Proof.
  unfold Re.search. generalize 0%nat as i.
  induction s as [|c s IH]; intros i H.
  - reflexivity.
  - simpl in H. apply andb_prop in H as [Hc H]. apply negb_true_iff in Hc.
    cbn [Re.search_from]. rewrite temperature_re_skip; [now apply IH|assumption|].
    right. destruct s as [|b s]; [reflexivity|]. simpl in *.
    apply andb_prop in H as [Hb _]. now apply negb_true_iff in Hb.
Qed.

(** ** The first signed integer of a text *)

Lemma span_digits (s : string) :
  exists ds after,
    s = ds +:+ after /\ all_chars is_digit ds = true
    /\ starts_with is_digit after = false.
Proof.
  induction s as [|c s (ds & after & -> & Hds & Hafter)].
  - exists EmptyString, EmptyString. repeat split.
  - destruct (is_digit c) eqn:Ec.
    + exists (String c ds), after. simpl. rewrite Ec, Hds. repeat split. assumption.
    + exists EmptyString, (String c (ds +:+ after)). simpl. repeat split. assumption.
Qed.

(** A text that holds a digit has a first signed integer. *)
Lemma first_signed_integer_exists (s : string) :
  all_chars not_digit s = false -> exists m, first_signed_integer s m.
Proof.
  induction s as [|c s IH]; simpl; [discriminate|].
  unfold not_digit at 1. destruct (is_digit c) eqn:Ec; simpl.
  - intros _. destruct (span_digits s) as (ds & after & -> & Hds & Hafter).
    exists (String c ds).
    apply (FirstSignedInteger _ _ EmptyString (String c ds) after);
      try reflexivity; try assumption; [discriminate| |].
    + simpl. now rewrite Ec, Hds.
    + right. split; reflexivity.
  - intros H.
    destruct (IH H) as [m [before ds after -> Hbefore Hne Hds Hsign Hafter]].
    destruct before as [|b before].
    + destruct Hsign as [->|[-> _]].
      * exists ("-" +:+ ds).
        apply (FirstSignedInteger _ _ (String c EmptyString) ds after);
          try reflexivity; try assumption; [|now left].
        simpl. unfold not_digit. now rewrite Ec.
      * destruct (is_minus c) eqn:Em.
        -- apply Ascii.eqb_eq in Em as ->. exists ("-" +:+ ds).
           apply (FirstSignedInteger _ _ EmptyString ds after);
             try reflexivity; try assumption. now left.
        -- exists ds.
           apply (FirstSignedInteger _ _ (String c EmptyString) ds after);
             try reflexivity; try assumption.
           ++ simpl. unfold not_digit. now rewrite Ec.
           ++ right. split; [reflexivity|exact Em].
    + exists m.
      apply (FirstSignedInteger _ _ (String c (String b before)) ds after);
        try reflexivity; try assumption.
      simpl. unfold not_digit at 1. rewrite Ec. exact Hbefore.
Qed.

Lemma first_signed_integer_value (s m : string) :
  first_signed_integer s m -> exists t, int_of_str m = Ok t.
Proof.
  intros [before ds after _ _ Hne Hds Hsign _].
  destruct (digits_value_total ds 0 Hds) as [v Hv].
  destruct Hsign as [->|[-> _]].
  - exists (- v). now apply int_of_str_minus_digits.
  - exists v. now apply int_of_str_digits.
Qed.

Lemma color_of_bands (t : Z) : color_of t temp_color_map = threshold_color t.
Proof. reflexivity. Qed.

Lemma color_of_first_signed_integer (s m : string) (t : Z) :
  first_signed_integer s m -> int_of_str m = Ok t ->
  get_temperature_color s = Ok (threshold_color t).
Proof.
  intros Hm Ht. unfold get_temperature_color.
  rewrite (search_first_signed_integer s m Hm), Ht. reflexivity.
Qed.

Lemma color_without_digit (s : string) :
  all_chars not_digit s = true -> get_temperature_color s = Ok "white".
Proof.
  intros H. unfold get_temperature_color. now rewrite search_no_digit.
Qed.



(** ** The colour of a formatted line *)

Lemma str_of_int_numeral (t : Z) :
  exists ds, ds <> EmptyString /\ all_chars is_digit ds = true
             /\ (str_of_int t = "-" +:+ ds \/ str_of_int t = ds).
Proof.
  unfold str_of_int.
  destruct (Z.to_int t) as [d|d] eqn:E; exists (NilEmpty.string_of_uint d);
    (split; [|split; [apply all_digits_string_of_uint|]]).
  - apply string_of_uint_nonempty.
    destruct t; simpl in E; inversion E; try discriminate;
      apply DecimalPos.Unsigned.to_uint_nonnil.
  - now right.
  - apply string_of_uint_nonempty.
    destruct t; simpl in E; inversion E;
      apply DecimalPos.Unsigned.to_uint_nonnil.
  - now left.
Qed.

(** In a formatted line the temperature is the first signed integer. *)
Lemma temperature_first_in_output (t : Z) (b c : string) :
  first_signed_integer
    ("Today it's " +:+ str_of_int t +:+ "° " +:+ b +:+ " and " +:+ c)
    (str_of_int t).
Proof.
  destruct (str_of_int_numeral t) as (ds & Hne & Hds & Hsign).
  apply (FirstSignedInteger _ _ "Today it's " ds ("° " +:+ b +:+ " and " +:+ c));
    try reflexivity; try assumption.
  destruct Hsign as [->| ->]; [now left|right; split; reflexivity].
Qed.

(** C10. For a context with an integer temperature [t], the colour chosen
    from the formatted line is the colour of the band of [t] itself: the
    formatter succeeds, [t] is the first signed integer of its line and
    reads back as [t]. *)
Theorem color_of_output_is_color_of_temperature
  (t : Z) (ic : Py.value) (c : string) :
  exists line,
    TextFormatter.output (Context t (Json.Str c) ic) = Ok line
    /\ first_signed_integer line (str_of_int t)
    /\ int_of_str (str_of_int t) = Ok t
    /\ get_temperature_color line = Ok (threshold_color t)
    /\ (do l <- TextFormatter.output (Context t (Json.Str c) ic);
        get_temperature_color l)%py
       = Ok (threshold_color t).
Proof.
  eexists. split; [apply output_text|].
  pose proof (temperature_first_in_output t (str_of_value ic) (lower c)) as Hfirst.
  pose proof (int_of_str_of_int t) as Hint.
  pose proof (color_of_first_signed_integer _ _ _ Hfirst Hint) as Hcolor.
  repeat split; try assumption.
  rewrite output_text. exact Hcolor.
Qed.

(** ** The icon table *)




(** ** The weather provider *)

(** C1. The body [{"main": {"temp": 55}, "weather": []}] is valid JSON whose
    [weather] array is empty. [OpenWeatherMap.now] does not raise
    [WeatherDataException] on it: [weather['weather'][0]] raises
    [IndexError], which the [except KeyError] clause does not catch, and the
    run ends on that exception without the apology. A body that is not JSON,
    one without [weather] and one without [main] do raise
    [WeatherDataException], and the complete body is formatted. *)
Theorem now_empty_weather_array_raises_IndexError :
  (forall (formatter : context -> result string) (txt : string),
      OpenWeatherMap.read_response formatter (Response txt (Some empty_weather_body))
      = Raise IndexError)
  /\ OpenWeatherMap.now (sample_world (Some empty_weather_body) [])
       TextFormatter.output (40 # 1) (- 75 # 1) "fahrenheit"
     = ([Get OpenWeatherMap.url (Some (Payload (40 # 1) (- 75 # 1) "imperial"))],
        Raise IndexError)
  /\ Weather.run (sample_world (Some empty_weather_body) [])
     = ([Get PublicIPAddress.url None;
         Get OpenWeatherMap.url (Some (Payload (40 # 1) (- 75 # 1) "imperial"))],
        Raise IndexError)
  /\ OpenWeatherMap.read_response TextFormatter.output (Response "" None)
     = Raise (WeatherDataException "Incorrect json response")
  /\ OpenWeatherMap.read_response TextFormatter.output
       (Response "" (Some no_weather_body))
     = Raise (WeatherDataException "No conditions reported for your search")
  /\ OpenWeatherMap.read_response TextFormatter.output
       (Response "" (Some no_main_body))
     = Raise (WeatherDataException "No conditions reported for your search")
  /\ OpenWeatherMap.read_response TextFormatter.output
       (Response "" (Some light_rain_body))
     = Ok "Today it's 55° ☂ and light rain".
Proof.
  split; [intros formatter txt; reflexivity|].
  repeat split; vm_compute; reflexivity.
Qed.

(** The exceptions of the interpreter, as opposed to those of the program. *)
Lemma int_of_str_raises (s : string) (e : exn) :
  int_of_str s = Raise e -> e = ValueError.
Proof.
  unfold int_of_str.
  match goal with |- match ?x with _ => _ end = _ -> _ => destruct x end;
    congruence.
Qed.

Lemma read_context_raises (v : Json.value) (e : exn) :
  OpenWeatherMap.read_context v = Raise e ->
  e = KeyError \/ e = IndexError \/ e = TypeError \/ e = ValueError
  \/ e = OverflowError.
Proof.
  assert (Hget : forall x k e', Json.getitem x k = Raise e' ->
                                e' = KeyError \/ e' = TypeError).
  { intros x k e'. destruct x; simpl; try (intros [= <-]; auto).
    destruct (_ !! _); intros [= <-]; auto. }
  assert (Hget0 : forall x e', Json.getitem0 x = Raise e' ->
                               e' = KeyError \/ e' = IndexError \/ e' = TypeError).
  { intros x e'. destruct x as [| | | | | |[|]|[|]|]; simpl; intros [= <-]; auto. }
  assert (Hint : forall x e', Json.int x = Raise e' ->
                              e' = TypeError \/ e' = ValueError \/ e' = OverflowError).
  { intros x e'. destruct x; simpl; try (intros [= <-]; auto); try discriminate.
    intros ->%int_of_str_raises. auto. }
  assert (Hicon : forall x e', OpenWeatherMap.ascii_icon x = Raise e' ->
                               e' = TypeError).
  { intros x e'. destruct x; simpl; congruence. }
  unfold OpenWeatherMap.read_context.
  repeat match goal with
         | |- Py.bind ?m _ = _ -> _ =>
             let E := fresh "E" in destruct m eqn:E; simpl
         end; try discriminate; intros [= <-];
    match goal with
    | E : Json.getitem _ _ = Raise _ |- _ => destruct (Hget _ _ _ E); subst; auto
    | E : Json.getitem0 _ = Raise _ |- _ =>
        destruct (Hget0 _ _ E) as [|[|]]; subst; auto
    | E : Json.int _ = Raise _ |- _ =>
        destruct (Hint _ _ E) as [|[|]]; subst; auto 6
    | E : OpenWeatherMap.ascii_icon _ = Raise _ |- _ =>
        rewrite (Hicon _ _ E); auto
    end.
Qed.

(** When [now] raises [WeatherDataException]: exactly when the body is not
    JSON, or when reading the three entries raises [KeyError]. *)
Lemma read_response_WeatherDataException (r : response) (msg : string) :
  OpenWeatherMap.read_response TextFormatter.output r
  = Raise (WeatherDataException msg)
  <-> (json r = None /\ msg = "Incorrect json response")
      \/ (exists v, json r = Some v
                    /\ OpenWeatherMap.read_context v = Raise KeyError
                    /\ msg = "No conditions reported for your search").
Proof.
  unfold OpenWeatherMap.read_response.
  destruct (json r) as [v|]; simpl.
  - destruct (OpenWeatherMap.read_context v) as [ctx|e] eqn:E; simpl.
    + split.
      * destruct ctx as [t c ic]. unfold TextFormatter.output.
        destruct c; simpl; discriminate.
      * intros [[? _]|(v' & [= <-] & ? & _)]; [discriminate|congruence].
    + split.
      * destruct (read_context_raises v e E) as [->|[->|[->|[->| ->]]]];
          simpl; try discriminate.
        intros [= <-]. right. exists v. repeat split; auto.
      * intros [[? _]|(v' & [= <-] & Hk & ->)]; [discriminate|].
        rewrite E in Hk. injection Hk as ->. reflexivity.
  - split.
    + intros [= <-]. now left.
    + intros [[_ ->]|(v' & ? & _)]; [reflexivity|discriminate].
Qed.

(** ** What [IPV4_RE] accepts *)

Lemma consumed_nil (c : Re.cursor) : consumed c c "".
Proof. split; simpl; [reflexivity|lia]. Qed.

Lemma consumed_app (c0 c1 c2 : Re.cursor) (l1 l2 : string) :
  consumed c0 c1 l1 -> consumed c1 c2 l2 -> consumed c0 c2 (l1 +:+ l2).
Proof.
  intros [H1 P1] [H2 P2]. split.
  - now rewrite H1, H2, append_assoc.
  - rewrite P2, P1, append_length. lia.
Qed.

Lemma in_run_chr (p : ascii -> bool) (c0 c : Re.cursor) :
  In c (Re.run (Re.Chr p) c0)
  <-> exists a, p a = true /\ consumed c0 c (String a "").
Proof.
  rewrite run_chr. destruct c0 as [i s], c as [j r]. unfold consumed. simpl.
  destruct s as [|a s].
  - split; [intros []|intros (a & _ & [=] & _)].
  - destruct (p a) eqn:E; simpl.
    + split.
      * intros [[= <- <-]|[]]. exists a. repeat split; [assumption|lia].
      * intros (a' & _ & [= <- ->] & ->). left. f_equal. lia.
    + split; [intros []|intros (a' & Ha & [= <- _] & _); congruence].
Qed.

Lemma in_run_cat (r1 r2 : Re.regex) (c0 c : Re.cursor) :
  In c (Re.run (Re.Cat r1 r2) c0)
  <-> exists c1, In c1 (Re.run r1 c0) /\ In c (Re.run r2 c1).
Proof. rewrite run_cat. apply in_flat_map. Qed.

Lemma in_run_alt (r1 r2 : Re.regex) (c0 c : Re.cursor) :
  In c (Re.run (Re.Alt r1 r2) c0)
  <-> In c (Re.run r1 c0) \/ In c (Re.run r2 c0).
Proof. rewrite run_alt. apply in_app_iff. Qed.

Lemma in_run_opt (r : Re.regex) (c0 c : Re.cursor) :
  In c (Re.run (Re.Opt r) c0) <-> In c (Re.run r c0) \/ c = c0.
Proof.
  rewrite run_opt, in_app_iff. simpl. intuition congruence.
Qed.

Lemma in_run_grp (r : Re.regex) (c0 c : Re.cursor) :
  In c (Re.run (Re.Grp r) c0) <-> In c (Re.run r c0).
Proof. now rewrite run_grp. Qed.

(** Characters by their codes. *)
Lemma in_range_codes (lo hi c : ascii) :
  in_range lo hi c = true
  <-> (nat_of_ascii lo <= nat_of_ascii c <= nat_of_ascii hi)%nat.
Proof.
  unfold in_range. rewrite andb_true_iff, !Nat.leb_le. reflexivity.
Qed.

Lemma eqb_codes (x a : ascii) :
  Ascii.eqb x a = true <-> nat_of_ascii a = nat_of_ascii x.
Proof.
  rewrite Ascii.eqb_eq. split; [now intros ->|].
  intros H. rewrite <- (ascii_nat_embedding a), H. symmetry. apply ascii_nat_embedding.
Qed.

Lemma is_digit_codes (c : ascii) :
  is_digit c = true <-> (48 <= nat_of_ascii c <= 57)%nat.
Proof. apply (in_range_codes "0" "9" c). Qed.

Lemma digits_value_cons (c : ascii) (s : string) (acc : Z) :
  is_digit c = true ->
  digits_value acc (String c s)
  = digits_value (10 * acc + (Z.of_nat (nat_of_ascii c) - 48)) s.
Proof. intros H. simpl. now rewrite H. Qed.

Lemma octet_one (a : ascii) :
  octet (String a "") = is_digit a.
Proof.
  unfold octet. simpl. destruct (is_digit a) eqn:E; [|reflexivity].
  apply is_digit_codes in E. unfold digit_value. apply Z.leb_le. lia.
Qed.

Lemma octet_two (a b : ascii) :
  octet (String a (String b "")) = is_digit a && is_digit b.
Proof.
  unfold octet. simpl. destruct (is_digit a) eqn:Ea; [|reflexivity].
  destruct (is_digit b) eqn:Eb; [|reflexivity].
  apply is_digit_codes in Ea, Eb. unfold digit_value. apply Z.leb_le. lia.
Qed.

Lemma octet_three (a b d : ascii) :
  octet (String a (String b (String d ""))) = true
  <-> (Ascii.eqb "2" a = true /\ Ascii.eqb "5" b = true /\ in_range "0" "5" d = true)
      \/ (Ascii.eqb "2" a = true /\ in_range "0" "4" b = true /\ is_digit d = true)
      \/ (in_range "0" "1" a = true /\ is_digit b = true /\ is_digit d = true).
Proof.
  rewrite !eqb_codes, !in_range_codes, !is_digit_codes.
  change (nat_of_ascii "0") with 48%nat. change (nat_of_ascii "1") with 49%nat.
  change (nat_of_ascii "2") with 50%nat. change (nat_of_ascii "4") with 52%nat.
  change (nat_of_ascii "5") with 53%nat.
  unfold octet. simpl.
  destruct (is_digit a) eqn:Ea.
  2:{ split; [discriminate|]. apply not_true_iff_false in Ea.
      rewrite is_digit_codes in Ea. lia. }
  destruct (is_digit b) eqn:Eb.
  2:{ split; [discriminate|]. apply not_true_iff_false in Eb.
      rewrite is_digit_codes in Eb. lia. }
  destruct (is_digit d) eqn:Ed.
  2:{ split; [discriminate|]. apply not_true_iff_false in Ed.
      rewrite is_digit_codes in Ed. lia. }
  apply is_digit_codes in Ea, Eb, Ed. unfold digit_value.
  rewrite Z.leb_le. lia.
Qed.

Lemma octet_length (l : string) :
  octet l = true ->
  (exists a, l = String a "")
  \/ (exists a b, l = String a (String b ""))
  \/ (exists a b d, l = String a (String b (String d ""))).
Proof.
  unfold octet. destruct l as [|a [|b [|d [|e l]]]]; simpl; try discriminate; eauto 7.
Qed.

(** What [octet_re] can read from a cursor: exactly the octets. *)
Lemma in_run_octet (c0 c : Re.cursor) :
  In c (Re.run octet_re c0)
  <-> exists l, octet l = true /\ consumed c0 c l.
Proof.
  unfold octet_re, Re.lit, Re.range, Re.digit.
  rewrite in_run_grp, !in_run_alt.
  split.
  - intros [H|[H|H]].
    + apply in_run_cat in H as (c1 & (a & Ha & C1)%in_run_chr & H).
      apply in_run_cat in H as (c2 & (b & Hb & C2)%in_run_chr & (d & Hd & C3)%in_run_chr).
      exists (String a (String b (String d ""))). split.
      * apply octet_three. auto.
      * apply (consumed_app _ _ _ _ _ C1 (consumed_app _ _ _ _ _ C2 C3)).
    + apply in_run_cat in H as (c1 & (a & Ha & C1)%in_run_chr & H).
      apply in_run_cat in H as (c2 & (b & Hb & C2)%in_run_chr & (d & Hd & C3)%in_run_chr).
      exists (String a (String b (String d ""))). split.
      * apply octet_three. auto.
      * apply (consumed_app _ _ _ _ _ C1 (consumed_app _ _ _ _ _ C2 C3)).
    + apply in_run_cat in H as (c1 & H1 & H).
      apply in_run_cat in H as (c2 & H2 & (d & Hd & C3)%in_run_chr).
      apply in_run_opt in H1 as [(a & Ha & C1)%in_run_chr| ->];
        apply in_run_opt in H2 as [(b & Hb & C2)%in_run_chr| ->].
      * exists (String a (String b (String d ""))). split.
        -- apply octet_three. auto.
        -- apply (consumed_app _ _ _ _ _ C1 (consumed_app _ _ _ _ _ C2 C3)).
      * exists (String a (String d "")). split.
        -- rewrite octet_two, Hd, andb_true_r.
           apply in_range_codes in Ha. apply is_digit_codes.
           change (nat_of_ascii "0") with 48%nat in Ha.
           change (nat_of_ascii "1") with 49%nat in Ha. lia.
        -- apply (consumed_app _ _ _ _ _ C1 C3).
      * exists (String b (String d "")). split.
        -- now rewrite octet_two, Hb, Hd.
        -- apply (consumed_app _ _ _ _ _ C2 C3).
      * exists (String d ""). split; [now rewrite octet_one|exact C3].
  - intros (l & Hl & [Hrest Hpos]).
    destruct c0 as [i s], c as [j r]. simpl in Hrest, Hpos. subst s j.
    assert (Hchr : forall (p : ascii -> bool) (x : ascii) (k : nat) (t : string),
               p x = true ->
               In (Re.Cursor (S k) t) (Re.run (Re.Chr p) (Re.Cursor k (String x t)))).
    { intros p x k t Hp. rewrite run_chr. simpl. rewrite Hp. now left. }
    destruct (octet_length l Hl) as [(a & ->)|[(a & b & ->)|(a & b & d & ->)]].
    + rewrite octet_one in Hl. right. right.
      apply in_run_cat. exists (Re.Cursor i (String a r)). split.
      { apply in_run_opt. now right. }
      apply in_run_cat. exists (Re.Cursor i (String a r)). split.
      { apply in_run_opt. now right. }
      simpl. replace (i + 1)%nat with (S i) by lia. now apply Hchr.
    + rewrite octet_two in Hl. apply andb_prop in Hl as [Ha Hb]. right. right.
      apply in_run_cat. exists (Re.Cursor i (String a (String b r))). split.
      { apply in_run_opt. now right. }
      apply in_run_cat. exists (Re.Cursor (S i) (String b r)). split.
      { apply in_run_opt. left. now apply Hchr. }
      simpl. replace (i + 2)%nat with (S (S i)) by lia. now apply Hchr.
    + simpl. replace (i + 3)%nat with (S (S (S i))) by lia.
      apply octet_three in Hl as [(Ha & Hb & Hd)|[(Ha & Hb & Hd)|(Ha & Hb & Hd)]].
      * left. apply in_run_cat. exists (Re.Cursor (S i) (String b (String d r))).
        split; [now apply Hchr|].
        apply in_run_cat. exists (Re.Cursor (S (S i)) (String d r)).
        split; now apply Hchr.
      * right. left.
        apply in_run_cat. exists (Re.Cursor (S i) (String b (String d r))).
        split; [now apply Hchr|].
        apply in_run_cat. exists (Re.Cursor (S (S i)) (String d r)).
        split; now apply Hchr.
      * right. right.
        apply in_run_cat. exists (Re.Cursor (S i) (String b (String d r))).
        split; [apply in_run_opt; left; now apply Hchr|].
        apply in_run_cat. exists (Re.Cursor (S (S i)) (String d r)).
        split; [apply in_run_opt; left; now apply Hchr|now apply Hchr].
Qed.

Lemma in_run_bol (c0 c : Re.cursor) :
  In c (Re.run Re.Bol c0) <-> Re.pos c0 = 0%nat /\ c = c0.
Proof.
  change (Re.run Re.Bol c0) with (if (Re.pos c0 =? 0)%nat then [c0] else []).
  destruct (Nat.eqb_spec (Re.pos c0) 0); simpl; intuition congruence.
Qed.

Lemma in_run_eol (c0 c : Re.cursor) :
  In c (Re.run Re.Eol c0) <-> Re.at_end (Re.rest c0) = true /\ c = c0.
Proof.
  change (Re.run Re.Eol c0) with (if Re.at_end (Re.rest c0) then [c0] else []).
  destruct (Re.at_end (Re.rest c0)); simpl; intuition congruence.
Qed.

Lemma in_run_rep3 (r : Re.regex) (c0 c : Re.cursor) :
  In c (Re.run (Re.Rep 3 r) c0)
  <-> exists c1 c2,
        In c1 (Re.run r c0) /\ In c2 (Re.run r c1) /\ In c (Re.run r c2).
Proof.
  change (Re.run (Re.Rep 3 r) c0) with (Re.times (Re.run r) 3 c0).
  simpl. rewrite in_flat_map. split.
  - intros (c1 & H1 & H). apply in_flat_map in H as (c2 & H2 & H).
    apply in_flat_map in H as (c3 & H3 & [<-|[]]). eauto.
  - intros (c1 & c2 & H1 & H2 & H3). exists c1. split; [assumption|].
    apply in_flat_map. exists c2. split; [assumption|].
    apply in_flat_map. exists c. split; [assumption|now left].
Qed.

Lemma in_run_dot_octet (c0 c : Re.cursor) :
  In c (Re.run (Re.Grp (Re.Cat (Re.lit ".") octet_re)) c0)
  <-> exists l, octet l = true /\ consumed c0 c ("." +:+ l).
Proof.
  rewrite in_run_grp, in_run_cat. unfold Re.lit. split.
  - intros (c1 & (a & Ha & C1)%in_run_chr & (l & Hl & C2)%in_run_octet).
    apply Ascii.eqb_eq in Ha as <-. exists l. split; [assumption|].
    apply (consumed_app _ _ _ _ _ C1 C2).
  - intros (l & Hl & [Hrest Hpos]).
    destruct c0 as [i s], c as [j r]. simpl in Hrest, Hpos. subst s j.
    exists (Re.Cursor (S i) (l +:+ r)). split.
    + apply in_run_chr. exists "."%char. repeat split. simpl. lia.
    + apply in_run_octet. exists l. repeat split; [assumption|simpl; lia].
Qed.

Lemma at_end_cases (r : string) :
  Re.at_end r = true <-> r = "" \/ r = String Re.newline "".
Proof.
  destruct r as [|a [|b r]]; simpl.
  - intuition.
  - rewrite Ascii.eqb_eq. split; [intros ->; now right|].
    intros [|[= ->]]; [discriminate|reflexivity].
  - split; [discriminate|]. intros [|]; discriminate.
Qed.

(** What [IPV4_RE] accepts from the start of a text: the dotted quads, and
    the dotted quads followed by one newline. *)
Lemma ipv4_re_accepts (s : string) :
  (exists c, In c (Re.run IPV4_RE (Re.Cursor 0 s)))
  <-> dotted_quad s \/ dotted_quad_newline s.
Proof.
  unfold IPV4_RE, dotted_quad_newline, dotted_quad. split.
  - intros (c & H).
    apply in_run_cat in H as (c1 & [_ ->]%in_run_bol & H).
    apply in_run_cat in H as (c2 & (a & Ha & Ca)%in_run_octet & H).
    apply in_run_cat in H as (c3 & H & [Hend ->]%in_run_eol).
    apply in_run_rep3 in H as (c4 & c5 & H4 & H5 & H6).
    apply in_run_dot_octet in H4 as (b & Hb & Cb).
    apply in_run_dot_octet in H5 as (x & Hx & Cx).
    apply in_run_dot_octet in H6 as (d & Hd & Cd).
    pose proof (consumed_app _ _ _ _ _ Ca
                  (consumed_app _ _ _ _ _ Cb (consumed_app _ _ _ _ _ Cx Cd)))
      as [Hrest _].
    simpl in Hrest. rewrite !append_assoc in Hrest.
    apply at_end_cases in Hend as [Hend|Hend]; rewrite Hend in Hrest.
    + left. exists a, b, x, d. repeat split; try assumption.
      rewrite Hrest, append_nil_r. reflexivity.
    + right. eexists. split; [exists a, b, x, d; repeat split; eassumption|].
      rewrite Hrest. symmetry. rewrite append_assoc. reflexivity.
  - assert (Hgo : forall a b x d r,
               octet a = true -> octet b = true -> octet x = true ->
               octet d = true -> Re.at_end r = true ->
               exists c,
                 In c (Re.run IPV4_RE
                         (Re.Cursor 0 ((a +:+ "." +:+ b +:+ "." +:+ x +:+ "." +:+ d) +:+ r)))).
    { intros a b x d r Ha Hb Hx Hd Hr.
      replace ((a +:+ "." +:+ b +:+ "." +:+ x +:+ "." +:+ d) +:+ r)
        with (a +:+ ("." +:+ b) +:+ ("." +:+ x) +:+ ("." +:+ d) +:+ r)
        by (rewrite !append_assoc; reflexivity).
      set (n1 := (0 + String.length a)%nat).
      set (n2 := (n1 + String.length ("." +:+ b))%nat).
      set (n3 := (n2 + String.length ("." +:+ x))%nat).
      set (n4 := (n3 + String.length ("." +:+ d))%nat).
      exists (Re.Cursor n4 r). unfold IPV4_RE.
      apply in_run_cat. eexists. split; [apply in_run_bol; split; reflexivity|].
      apply in_run_cat.
      exists (Re.Cursor n1 (("." +:+ b) +:+ ("." +:+ x) +:+ ("." +:+ d) +:+ r)). split.
      { apply in_run_octet. exists a. repeat split. assumption. }
      apply in_run_cat. exists (Re.Cursor n4 r). split;
        [|apply in_run_eol; split; [assumption|reflexivity]].
      apply in_run_rep3.
      exists (Re.Cursor n2 (("." +:+ x) +:+ ("." +:+ d) +:+ r)),
             (Re.Cursor n3 (("." +:+ d) +:+ r)).
      repeat split; apply in_run_dot_octet;
        [exists b|exists x|exists d]; repeat split; assumption. }
    intros [(a & b & x & d & Ha & Hb & Hx & Hd & ->)
           |(q & (a & b & x & d & Ha & Hb & Hx & Hd & ->) & ->)].
    + rewrite <- (append_nil_r (a +:+ _)). now apply Hgo.
    + now apply Hgo.
Qed.

Lemma match_some_iff (r : Re.regex) (s : string) :
  (exists m, Re.match_ r s = Some m)
  <-> exists c, In c (Re.run r (Re.Cursor 0 s)).
Proof.
  unfold Re.match_. destruct (Re.run r (Re.Cursor 0 s)) as [|c l].
  - split; [intros [m [=]]|intros [c []]].
  - split; [intros _; exists c; now left|intros _; eauto].
Qed.

(** [validate] on every text: [True] for a dotted quad and for a dotted quad
    followed by a newline, [IPAddressException] with the text in its message
    for every other text. *)
Lemma validate_characterisation (s : string) :
  (dotted_quad s \/ dotted_quad_newline s ->
   PublicIPAddress.validate s = Ok true)
  /\ (~ (dotted_quad s \/ dotted_quad_newline s) ->
      PublicIPAddress.validate s
      = Raise (IPAddressException ("Incorrect ip v4 address " +:+ s))).
Proof.
  unfold PublicIPAddress.validate.
  pose proof (ipv4_re_accepts s) as Hacc. rewrite <- match_some_iff in Hacc.
  destruct (Re.match_ IPV4_RE s) as [m|].
  - split; [reflexivity|]. intros Hno. destruct Hno. apply Hacc. eauto.
  - split.
    + intros [m [=]]%Hacc.
    + intros _. now rewrite format_invalid_address.
Qed.

Lemma all_chars_app (p : ascii -> bool) (a b : string) :
  all_chars p (a +:+ b) = all_chars p a && all_chars p b.
Proof.
  induction a as [|x a IH]; simpl; [reflexivity|].
  now rewrite IH, andb_assoc.
Qed.

Lemma octet_all_digits (l : string) :
  octet l = true -> all_chars is_digit l = true.
Proof.
  unfold octet. intros H. apply andb_prop in H as [_ H].
  destruct (digits_value 0 l) as [v|] eqn:E; [|discriminate].
  eauto using digits_value_all_digits.
Qed.

(** A dotted quad is made of digits and dots. *)
Lemma dotted_quad_chars (s : string) :
  dotted_quad s ->
  all_chars (fun c => is_digit c || Ascii.eqb c ".") s = true.
Proof.
  assert (Hd : forall l, octet l = true ->
                         all_chars (fun c => is_digit c || Ascii.eqb c ".") l = true).
  { intros l Hl%octet_all_digits. induction l as [|c l IH]; [reflexivity|].
    simpl in *. apply andb_prop in Hl as [-> Hl]. simpl. auto. }
  intros (a & b & c & d & Ha & Hb & Hc & Hd' & ->).
  rewrite !all_chars_app, (Hd a), (Hd b), (Hd c), (Hd d) by assumption.
  reflexivity.
Qed.

Lemma address_with_newline_not_dotted_quad :
  dotted_quad_newline address_with_newline
  /\ ~ dotted_quad address_with_newline.
Proof.
  split.
  - exists "1.1.1.1". split; [|reflexivity].
    exists "1", "1", "1", "1". repeat split.
  - intros H%dotted_quad_chars. vm_compute in H. discriminate.
Qed.

(** ** The address validator *)

(** C4. [validate] accepts the dotted quad 192.168.1.1 and rejects
    256.1.1.1, 1.1.1 and 1.1.1.a with a message that carries them, but it
    also accepts 1.1.1.1 followed by a newline, which is not a dotted quad:
    [$] matches before a final newline. *)
Theorem validate_accepts_trailing_newline :
  PublicIPAddress.validate address_with_newline = Ok true
  /\ ~ dotted_quad address_with_newline
  /\ Re.match_ IPV4_RE address_with_newline = Some "1.1.1.1"
  /\ PublicIPAddress.validate "192.168.1.1" = Ok true
  /\ PublicIPAddress.validate "256.1.1.1"
     = Raise (IPAddressException "Incorrect ip v4 address 256.1.1.1")
  /\ PublicIPAddress.validate "1.1.1"
     = Raise (IPAddressException "Incorrect ip v4 address 1.1.1")
  /\ PublicIPAddress.validate "1.1.1.a"
     = Raise (IPAddressException "Incorrect ip v4 address 1.1.1.a").
Proof.
  split; [vm_compute; reflexivity|].
  split; [apply address_with_newline_not_dotted_quad|].
  repeat split; vm_compute; reflexivity.
Qed.

(** ** The orchestrator *)

Lemma resolve_address_events (w : world) (ip : option string) :
  fst (Weather.resolve_address w ip) = []
  \/ fst (Weather.resolve_address w ip) = [Get PublicIPAddress.url None].
Proof.
  unfold Weather.resolve_address, PublicIPAddress.resolve, IO.get, IO.lift, IO.ret.
  destruct (Weather.not_ip ip).
  - right. simpl. destruct (PublicIPAddress.validate _) as [[]|]; reflexivity.
  - left. destruct ip as [a|]; simpl; [|reflexivity].
    destruct (PublicIPAddress.validate a); reflexivity.
Qed.

Lemma now_events (w : world) (f : context -> result string) (lat lon : Q)
  (u m : string) :
  OpenWeatherMap.MAPPING_UNITS !! u = Some m ->
  fst (OpenWeatherMap.now w f lat lon u)
  = [Get OpenWeatherMap.url (Some (Payload lat lon m))].
Proof.
  intros H. unfold OpenWeatherMap.now. rewrite H.
  unfold IO.lift, IO.get, IO.bind.
  destruct (OpenWeatherMap.read_response f _); reflexivity.
Qed.

Lemma now_events_any (w : world) (f : context -> result string) (lat lon : Q)
  (u : string) :
  fst (OpenWeatherMap.now w f lat lon u) = []
  \/ exists p, fst (OpenWeatherMap.now w f lat lon u)
               = [Get OpenWeatherMap.url (Some p)].
Proof.
  destruct (OpenWeatherMap.MAPPING_UNITS !! u) as [m|] eqn:E.
  - right. exists (Payload lat lon m). now apply now_events.
  - left. unfold OpenWeatherMap.now. rewrite E. reflexivity.
Qed.

(** [run] after the arguments are parsed and the address is resolved. *)
Lemma run_resolved (w : world) (args : CliArguments.options)
  (tr : list event) (addr : option string) :
  CliArguments.parse (argv w) = Ok args ->
  Weather.resolve_address w (CliArguments.ip args) = (tr, Ok addr) ->
  Weather.run w
  = IO.bind (tr, Ok addr)
      (fun ip_address =>
         match geolite2_lookup w ip_address with
         | None => IO.raise (IPAddressException "Incorrect ip address")
         | Some location =>
             (do conditions <-
                IO.catch
                  (OpenWeatherMap.now w TextFormatter.output (fst location)
                                      (snd location) (CliArguments.units args))
                  (fun exc =>
                     match exc with
                     | WeatherDataException message =>
                         Some (do line <- IO.lift (Weather.apology message);
                               do _ <- IO.emit (PrintStderr line);
                               IO.raise (SystemExit 1))
                     | _ => None
                     end);
              do color <- IO.lift (get_temperature_color conditions);
              IO.emit (Puts color conditions))%io
         end).
Proof.
  intros Hargs Haddr. unfold Weather.run. rewrite Hargs.
  unfold IO.lift at 1. unfold IO.bind at 1. rewrite Haddr.
  destruct (IO.bind (tr, Ok addr) _). reflexivity.
Qed.

Lemma stdout_app (a b : list event) :
  Weather.stdout (a ++ b) = Weather.stdout a ++ Weather.stdout b.
Proof. apply flat_map_app. Qed.

Lemma stderr_app (a b : list event) :
  Weather.stderr (a ++ b) = Weather.stderr a ++ Weather.stderr b.
Proof. apply flat_map_app. Qed.

Lemma requested_app (a b : list event) :
  Weather.requested (a ++ b) = Weather.requested a ++ Weather.requested b.
Proof. apply flat_map_app. Qed.

(** C8. When the arguments are parsed, the address is resolved and the
    database has no match for it, [run] raises [IPAddressException] with the
    message "Incorrect ip address", and the weather service is not among the
    requests made. *)
Theorem run_no_match_raises (w : world) (args : CliArguments.options)
  (tr : list event) (addr : option string)
  (Hargs : CliArguments.parse (argv w) = Ok args)
  (Haddr : Weather.resolve_address w (CliArguments.ip args) = (tr, Ok addr))
  (Hmatch : geolite2_lookup w addr = None) :
  Weather.run w = (tr, Raise (IPAddressException "Incorrect ip address"))
  /\ ~ In OpenWeatherMap.url (Weather.requested (fst (Weather.run w)))
  /\ Weather.stdout (fst (Weather.run w)) = []
  /\ Weather.stderr (fst (Weather.run w)) = [].
Proof.
  assert (Hrun : Weather.run w
                 = (tr, Raise (IPAddressException "Incorrect ip address"))).
  { rewrite (run_resolved w args tr addr Hargs Haddr). simpl.
    rewrite Hmatch. simpl. now rewrite app_nil_r. }
  rewrite Hrun. simpl.
  pose proof (resolve_address_events w (CliArguments.ip args)) as Hev.
  rewrite Haddr in Hev. simpl in Hev.
  destruct Hev as [-> | ->]; repeat split; simpl; try tauto.
  intros [H|[]]. discriminate H.
Qed.

Lemma run_no_match_raises_witness :
  Weather.run (sample_world (Some light_rain_body) ["-ip"; "8.8.4.4"])
  = ([], Raise (IPAddressException "Incorrect ip address"))
  /\ ~ In OpenWeatherMap.url
       (Weather.requested
          (fst (Weather.run (sample_world (Some light_rain_body) ["-ip"; "8.8.4.4"]))))
  /\ Weather.stdout
       (fst (Weather.run (sample_world (Some light_rain_body) ["-ip"; "8.8.4.4"]))) = []
  /\ Weather.stderr
       (fst (Weather.run (sample_world (Some light_rain_body) ["-ip"; "8.8.4.4"]))) = [].
Proof.
  apply (run_no_match_raises
           (sample_world (Some light_rain_body) ["-ip"; "8.8.4.4"])
           (CliArguments.Options (Some "8.8.4.4") "fahrenheit")
           [] (Some "8.8.4.4")); vm_compute; reflexivity.
Defined.

(** C7. When the arguments are parsed, the address is resolved and located,
    and the call of the weather provider raises [WeatherDataException] with
    message [msg], [run] prints the apology that carries [msg] on the error
    stream and exits with status 1; it prints nothing else, and nothing on
    standard output. *)
Theorem run_weather_failure_apologises (w : world)
  (args : CliArguments.options) (tr tr' : list event) (addr : option string)
  (loc : Q * Q) (msg : string)
  (Hargs : CliArguments.parse (argv w) = Ok args)
  (Haddr : Weather.resolve_address w (CliArguments.ip args) = (tr, Ok addr))
  (Hmatch : geolite2_lookup w addr = Some loc)
  (Hnow : OpenWeatherMap.now w TextFormatter.output (fst loc) (snd loc)
            (CliArguments.units args)
          = (tr', Raise (WeatherDataException msg))) :
  let line := "Something bad happens(" +:+ msg +:+ "), Please try again later." in
  Weather.run w = (tr ++ tr' ++ [PrintStderr line], Raise (SystemExit 1))
  /\ Weather.stderr (fst (Weather.run w)) = [line]
  /\ Weather.stdout (fst (Weather.run w)) = []
  /\ Weather.exit_status (snd (Weather.run w)) = 1.
Proof.
  intros line.
  assert (Hrun : Weather.run w
                 = (tr ++ tr' ++ [PrintStderr line], Raise (SystemExit 1))).
  { rewrite (run_resolved w args tr addr Hargs Haddr).
    unfold IO.bind at 1. rewrite Hmatch, Hnow.
    unfold IO.catch, IO.bind, IO.lift, IO.emit, IO.raise.
    rewrite format_apology. simpl. rewrite ?app_nil_r. reflexivity. }
  rewrite Hrun. simpl.
  pose proof (resolve_address_events w (CliArguments.ip args)) as Hev.
  rewrite Haddr in Hev. simpl in Hev.
  pose proof (now_events_any w TextFormatter.output (fst loc) (snd loc)
                (CliArguments.units args)) as Hev'.
  rewrite Hnow in Hev'. simpl in Hev'.
  rewrite !stderr_app, !stdout_app.
  destruct Hev as [-> | ->], Hev' as [-> | [p ->]]; repeat split.
Qed.

Lemma run_weather_failure_apologises_witness :
  Weather.run (sample_world None [])
  = ([Get PublicIPAddress.url None]
       ++ [Get OpenWeatherMap.url (Some (Payload (40 # 1) (- 75 # 1) "imperial"))]
       ++ [PrintStderr ("Something bad happens(" +:+ "Incorrect json response"
                          +:+ "), Please try again later.")],
      Raise (SystemExit 1))
  /\ Weather.stderr (fst (Weather.run (sample_world None [])))
     = ["Something bad happens(" +:+ "Incorrect json response"
          +:+ "), Please try again later."]
  /\ Weather.stdout (fst (Weather.run (sample_world None []))) = []
  /\ Weather.exit_status (snd (Weather.run (sample_world None []))) = 1.
Proof.
  apply (run_weather_failure_apologises
           (sample_world None [])
           (CliArguments.Options None "fahrenheit")
           [Get PublicIPAddress.url None]
           [Get OpenWeatherMap.url (Some (Payload (40 # 1) (- 75 # 1) "imperial"))]
           (Some "8.8.8.8") (40 # 1, - 75 # 1)%Q "Incorrect json response");
    vm_compute; reflexivity.
Defined.

Lemma mapping_units_lookup (u : string) :
  OpenWeatherMap.MAPPING_UNITS !! u
  = if String.eqb u "fahrenheit" then Some "imperial"
    else if String.eqb u "celsius" then Some "metric"
    else None.
Proof.
  unfold OpenWeatherMap.MAPPING_UNITS.
  destruct (String.eqb_spec u "fahrenheit") as [->|Hf]; [reflexivity|].
  destruct (String.eqb_spec u "celsius") as [->|Hc]; [reflexivity|].
  rewrite !lookup_insert_ne by congruence. apply lookup_empty.
Qed.

Lemma now_mapped (w : world) (f : context -> result string) (lat lon : Q)
  (u m : string) :
  OpenWeatherMap.MAPPING_UNITS !! u = Some m ->
  OpenWeatherMap.now w f lat lon u
  = ([Get OpenWeatherMap.url (Some (Payload lat lon m))],
     OpenWeatherMap.read_response f
       (requests_get w OpenWeatherMap.url (Some (Payload lat lon m)))).
Proof.
  intros H. unfold OpenWeatherMap.now. rewrite H.
  unfold IO.lift, IO.get, IO.bind.
  destruct (OpenWeatherMap.read_response f _); reflexivity.
Qed.

Section LightRain.

Variables (txt : string) (body main t wr w0 : Json.value).
Hypothesis Hmain : Json.getitem body "main" = Ok main.
Hypothesis Htemp : Json.getitem main "temp" = Ok t.
Hypothesis Hint : Json.int t = Ok 55.
Hypothesis Hweather : Json.getitem body "weather" = Ok wr.
Hypothesis Hfirst : Json.getitem0 wr = Ok w0.
Hypothesis Hdescription : Json.getitem w0 "description" = Ok (Json.Str "light rain").
Hypothesis Hicon : Json.getitem w0 "icon" = Ok (Json.Str "10d").

Lemma read_context_light_rain :
  OpenWeatherMap.read_context body
  = Ok (Context 55 (Json.Str "light rain") (Py.Str RAIN)).
Proof.
  unfold OpenWeatherMap.read_context.
  rewrite Hmain. simpl. rewrite Htemp. simpl. rewrite Hint. simpl.
  rewrite Hweather. simpl. rewrite Hfirst. simpl. rewrite Hdescription. simpl.
  rewrite Hicon. reflexivity.
Qed.

Lemma read_response_light_rain :
  OpenWeatherMap.read_response TextFormatter.output (Response txt (Some body))
  = Ok "Today it's 55° ☂ and light rain".
Proof.
  unfold OpenWeatherMap.read_response. simpl.
  rewrite read_context_light_rain. reflexivity.
Qed.

End LightRain.

(** C6 (as amended). When the arguments are parsed with the units
    fahrenheit, the address is resolved, the database places it at
    (40.0, -75.0) and the weather service answers the request for that place
    with a body that holds the temperature 55, the description "light rain"
    and the icon code "10d", [run] prints
    "Today it's 55° ☂ and light rain" (the umbrella U+2602) in blue on
    standard output, prints nothing on the error stream and ends with
    status 0. *)
Theorem run_light_rain_prints_blue (w : world)
  (args : CliArguments.options) (tr : list event) (addr : option string)
  (txt : string) (body main t wr w0 : Json.value)
  (Hargs : CliArguments.parse (argv w) = Ok args)
  (Hunits : CliArguments.units args = "fahrenheit")
  (Haddr : Weather.resolve_address w (CliArguments.ip args) = (tr, Ok addr))
  (Hmatch : geolite2_lookup w addr = Some (40 # 1, - 75 # 1)%Q)
  (Hresponse : requests_get w OpenWeatherMap.url
                 (Some (Payload (40 # 1) (- 75 # 1) "imperial"))
               = Response txt (Some body))
  (Hmain : Json.getitem body "main" = Ok main)
  (Htemp : Json.getitem main "temp" = Ok t)
  (Hint : Json.int t = Ok 55)
  (Hweather : Json.getitem body "weather" = Ok wr)
  (Hfirst : Json.getitem0 wr = Ok w0)
  (Hdescription : Json.getitem w0 "description" = Ok (Json.Str "light rain"))
  (Hicon : Json.getitem w0 "icon" = Ok (Json.Str "10d")) :
  Weather.run w
  = (tr ++ [Get OpenWeatherMap.url (Some (Payload (40 # 1) (- 75 # 1) "imperial"));
            Puts "blue" "Today it's 55° ☂ and light rain"],
     Ok tt)
  /\ Weather.stdout (fst (Weather.run w))
     = [("blue", "Today it's 55° ☂ and light rain")]
  /\ Weather.stderr (fst (Weather.run w)) = []
  /\ Weather.exit_status (snd (Weather.run w)) = 0.
Proof.
  assert (Hrun : Weather.run w
    = (tr ++ [Get OpenWeatherMap.url (Some (Payload (40 # 1) (- 75 # 1) "imperial"));
              Puts "blue" "Today it's 55° ☂ and light rain"],
       Ok tt)).
  { rewrite (run_resolved w args tr addr Hargs Haddr).
    unfold IO.bind at 1. rewrite Hmatch, Hunits.
    cbn [fst snd].
    rewrite (now_mapped w _ _ _ "fahrenheit" "imperial") by reflexivity.
    rewrite Hresponse.
    rewrite (read_response_light_rain txt body main t wr w0) by assumption.
    reflexivity. }
  rewrite Hrun. cbn [fst snd].
  pose proof (resolve_address_events w (CliArguments.ip args)) as Hev.
  rewrite Haddr in Hev. cbn [fst] in Hev.
  rewrite stdout_app, stderr_app.
  destruct Hev as [-> | ->]; repeat split.
Qed.

Lemma run_light_rain_prints_blue_witness :
  Weather.run (sample_world (Some light_rain_body) [])
  = ([Get PublicIPAddress.url None]
       ++ [Get OpenWeatherMap.url (Some (Payload (40 # 1) (- 75 # 1) "imperial"));
           Puts "blue" "Today it's 55° ☂ and light rain"],
     Ok tt)
  /\ Weather.stdout (fst (Weather.run (sample_world (Some light_rain_body) [])))
     = [("blue", "Today it's 55° ☂ and light rain")]
  /\ Weather.stderr (fst (Weather.run (sample_world (Some light_rain_body) []))) = []
  /\ Weather.exit_status (snd (Weather.run (sample_world (Some light_rain_body) []))) = 0.
Proof.
  apply (run_light_rain_prints_blue
           (sample_world (Some light_rain_body) [])
           (CliArguments.Options None "fahrenheit")
           [Get PublicIPAddress.url None] (Some "8.8.8.8")
           "" light_rain_body
           (json_object [("temp", Json.Number 55)])
           (Json.Number 55)
           (Json.Array [json_object [("description", Json.Str "light rain");
                                     ("icon", Json.Str "10d")]])
           (json_object [("description", Json.Str "light rain");
                         ("icon", Json.Str "10d")]));
    vm_compute; reflexivity.
Defined.

(** The same run does not print the line with the umbrella with rain drops
    (U+2614). *)
Lemma run_light_rain_does_not_print_rain_drops :
  Weather.stdout (fst (Weather.run (sample_world (Some light_rain_body) [])))
  = [("blue", "Today it's 55° ☂ and light rain")]
  /\ Weather.stdout (fst (Weather.run (sample_world (Some light_rain_body) [])))
     <> [("blue", "Today it's 55° ☔ and light rain")]
  /\ geolite2_lookup (sample_world (Some light_rain_body) []) (Some "8.8.8.8")
     = Some (40 # 1, - 75 # 1)%Q
  /\ CliArguments.parse (argv (sample_world (Some light_rain_body) []))
     = Ok (CliArguments.Options None "fahrenheit")
  /\ Weather.exit_status (snd (Weather.run (sample_world (Some light_rain_body) []))) = 0.
Proof. repeat split; vm_compute; congruence. Qed.

(** ** Units and the command line *)

Lemma prefix_append (p a : string) :
  String.prefix p a = true -> exists r, a = p +:+ r.
Proof.
  revert a. induction p as [|x p IH]; intros a.
  - intros _. now exists a.
  - destruct a as [|y a]; simpl; [discriminate|].
    destruct (Ascii.ascii_dec x y) as [->|]; [|discriminate].
    intros [r ->]%IH. now exists r.
Qed.

Lemma joined_units_flag (a v : string) :
  CliArguments.joined_value "--units=" "-u=" a = Some v -> units_flag a = true.
Proof.
  unfold CliArguments.joined_value, CliArguments.strip_prefix.
  destruct (String.prefix "--units=" a) eqn:E.
  - intros _. apply prefix_append in E as [r ->]. reflexivity.
  - destruct (String.prefix "-u=" a) eqn:E'; [|discriminate].
    intros _. apply prefix_append in E' as [r ->]. reflexivity.
Qed.

Lemma parse_args_keeps_units_bounded (n : nat) (args : list string)
  (acc o : CliArguments.options) :
  (List.length args <= n)%nat ->
  forallb (fun a => negb (units_flag a)) args = true ->
  CliArguments.parse_args acc args = Ok o ->
  CliArguments.units o = CliArguments.units acc.
Proof.
  revert args acc.
  induction n as [|n IH]; intros [|a args'] acc Hlen Hflags Hparse;
    try (simpl in Hlen; lia);
    try (simpl in Hparse; now injection Hparse as <-).
  simpl in Hflags. apply andb_prop in Hflags as [Ha Hflags].
  apply negb_true_iff in Ha. simpl in Hlen.
  cbn [CliArguments.parse_args] in Hparse.
  destruct (String.eqb_spec a "-u") as [->|_]; [discriminate Ha|].
  destruct (String.eqb_spec a "--units") as [->|_]; [discriminate Ha|].
  cbn [orb] in Hparse.
  destruct (String.eqb a "-ip" || String.eqb a "--ip-address").
  - destruct args' as [|v args'']; [discriminate|].
    destruct (CliArguments.is_value v); [|discriminate].
    simpl in Hflags, Hlen. apply andb_prop in Hflags as [_ Hflags].
    apply (IH args'') in Hparse; [exact Hparse|lia|exact Hflags].
  - destruct (CliArguments.joined_value "--units=" "-u=" a) as [v|] eqn:Ev.
    + apply joined_units_flag in Ev. congruence.
    + destruct (CliArguments.joined_value "--ip-address=" "-ip=" a);
        [|discriminate].
      apply (IH args') in Hparse; [exact Hparse|lia|exact Hflags].
Qed.

(** Arguments that do not spell the units option leave the units as they
    are. *)
Lemma parse_args_keeps_units (args : list string)
  (acc o : CliArguments.options) :
  forallb (fun a => negb (units_flag a)) args = true ->
  CliArguments.parse_args acc args = Ok o ->
  CliArguments.units o = CliArguments.units acc.
Proof. apply (parse_args_keeps_units_bounded (List.length args)). lia. Qed.

(** C9. The units are mapped as fahrenheit to "imperial" and celsius to
    "metric", and to nothing else, and that is the [units] parameter of the
    weather request; the parser gives fahrenheit when the command line is
    empty and whenever no argument spells the units option. *)
Theorem units_mapping_and_default :
  (forall u : string,
      OpenWeatherMap.MAPPING_UNITS !! u
      = if String.eqb u "fahrenheit" then Some "imperial"
        else if String.eqb u "celsius" then Some "metric"
        else None)
  /\ (forall (w : world) (f : context -> result string) (lat lon : Q),
         fst (OpenWeatherMap.now w f lat lon "fahrenheit")
         = [Get OpenWeatherMap.url (Some (Payload lat lon "imperial"))]
         /\ fst (OpenWeatherMap.now w f lat lon "celsius")
            = [Get OpenWeatherMap.url (Some (Payload lat lon "metric"))])
  /\ CliArguments.default_units = "fahrenheit"
  /\ CliArguments.parse [] = Ok (CliArguments.Options None "fahrenheit")
  /\ (forall (args : list string) (o : CliArguments.options),
         forallb (fun a => negb (units_flag a)) args = true ->
         CliArguments.parse args = Ok o ->
         CliArguments.units o = "fahrenheit").
Proof.
  split; [exact mapping_units_lookup|].
  split; [intros w f lat lon; split; now apply now_events|].
  repeat split.
  intros args o Hflags Hparse.
  apply (parse_args_keeps_units args _ o Hflags Hparse).
Qed.

Lemma units_mapping_and_default_witness :
  forallb (fun a => negb (units_flag a)) ["--ip-address"; "8.8.8.8"] = true
  /\ CliArguments.parse ["--ip-address"; "8.8.8.8"]
     = Ok (CliArguments.Options (Some "8.8.8.8") "fahrenheit")
  /\ CliArguments.units (CliArguments.Options (Some "8.8.8.8") "fahrenheit")
     = "fahrenheit".
Proof.
  split; [reflexivity|split; [reflexivity|]].
  apply (proj2 (proj2 (proj2 (proj2 units_mapping_and_default)))
           ["--ip-address"; "8.8.8.8"]); vm_compute; reflexivity.
Defined.


(** * Further properties of the program *)

(** ** [PublicIPAddress] *)





(** ** [get_temperature_color] *)

Lemma get_temperature_color_total (s : string) :
  exists c, get_temperature_color s = Ok c /\ In c colors.
Proof.
  destruct (all_chars not_digit s) eqn:E.
  - exists "white". split; [now apply color_without_digit|].
    unfold colors. simpl. tauto.
  - destruct (first_signed_integer_exists s E) as [m Hm].
    destruct (first_signed_integer_value s m Hm) as [t Ht].
    exists (threshold_color t).
    split; [now apply (color_of_first_signed_integer s m t)|].
    unfold threshold_color, colors.
    destruct (t <=? 40), (t <=? 60), (t <=? 80); simpl; tauto.
Qed.

(** X3. [get_temperature_color] never raises, and what it returns is one of
    cyan, blue, yellow, red and white, so that the colour function [run]
    looks up always exists. *)
Theorem get_temperature_color_is_a_color (s : string) :
  exists c, get_temperature_color s = Ok c /\ In c colors.
Proof.
  unfold get_temperature_color.
  destruct (all_chars not_digit s) eqn:E.
  - rewrite (search_no_digit s E). exists "white". split; [reflexivity|].
    unfold colors. simpl. tauto.
  - destruct (first_signed_integer_exists s E) as [m Hm].
    rewrite (search_first_signed_integer s m Hm).
    destruct (first_signed_integer_value s m Hm) as [t ->].
    exists (threshold_color t). split; [reflexivity|].
    unfold threshold_color, colors.
    destruct (t <=? 40), (t <=? 60), (t <=? 80); simpl; tauto.
Qed.

(** ** [OpenWeatherMap.now] *)

(** X4. With units that are neither fahrenheit nor celsius, [now] raises
    [KeyError] before it makes any request. *)
Theorem now_unknown_units_raises_KeyError (w : world)
  (f : context -> result string) (lat lon : Q) (u : string)
  (Hf : u <> "fahrenheit") (Hc : u <> "celsius") :
  OpenWeatherMap.now w f lat lon u = ([], Raise KeyError).
Proof.
  unfold OpenWeatherMap.now. rewrite mapping_units_lookup.
  destruct (String.eqb_spec u "fahrenheit"); [contradiction|].
  destruct (String.eqb_spec u "celsius"); [contradiction|].
  reflexivity.
Qed.

Lemma now_unknown_units_raises_KeyError_witness :
  OpenWeatherMap.now (sample_world (Some light_rain_body) [])
    TextFormatter.output (40 # 1) (- 75 # 1) "kelvin"
  = ([], Raise KeyError).
Proof.
  apply now_unknown_units_raises_KeyError; discriminate.
Defined.

(** ** The command line *)

Lemma set_units_ok (v : string) (acc acc' : CliArguments.options) :
  CliArguments.set_units v acc = Ok acc' ->
  acc' = CliArguments.Options (CliArguments.ip acc) v
  /\ (v = "celsius" \/ v = "fahrenheit").
Proof.
  unfold CliArguments.set_units, CliArguments.choices. cbn [existsb].
  destruct (String.eqb_spec v "celsius") as [->|_]; cbn [orb].
  - intros [= <-]. auto.
  - destruct (String.eqb_spec v "fahrenheit") as [->|_]; cbn [orb].
    + intros [= <-]. auto.
    + discriminate.
Qed.

Lemma set_units_raises (v : string) (acc : CliArguments.options) (e : exn) :
  CliArguments.set_units v acc = Raise e -> e = SystemExit 2.
Proof.
  unfold CliArguments.set_units, CliArguments.usage_error.
  destruct (existsb _ _); congruence.
Qed.

(** What holds of the options at the start and is kept by each option read
    holds of the options parsed; and the only failure is the usage error. *)
Lemma parse_args_invariant (P : CliArguments.options -> Prop)
  (Hip : forall acc v, P acc ->
                       P (CliArguments.Options (Some v) (CliArguments.units acc)))
  (Hunits : forall acc v, P acc -> (v = "celsius" \/ v = "fahrenheit") ->
                          P (CliArguments.Options (CliArguments.ip acc) v))
  (n : nat) (args : list string) (acc : CliArguments.options) :
  (List.length args <= n)%nat -> P acc ->
  match CliArguments.parse_args acc args with
  | Ok o => P o
  | Raise e => e = SystemExit 2
  end.
Proof.
  revert args acc.
  induction n as [|n IH]; intros [|a args'] acc Hlen Hacc;
    try (simpl in Hlen; lia); try exact Hacc.
  simpl in Hlen. cbn [CliArguments.parse_args].
  assert (Hset : forall v rest, (List.length rest <= n)%nat ->
             match (do acc' <- CliArguments.set_units v acc;
                    CliArguments.parse_args acc' rest)%py with
             | Ok o => P o
             | Raise e => e = SystemExit 2
             end).
  { intros v rest Hrest.
    destruct (CliArguments.set_units v acc) as [acc'|e] eqn:E; simpl.
    - apply set_units_ok in E as [-> Hv]. apply IH; auto.
    - now apply set_units_raises in E. }
  destruct (String.eqb a "-u" || String.eqb a "--units").
  - destruct args' as [|v args'']; [reflexivity|].
    destruct (CliArguments.is_value v); [|reflexivity].
    apply Hset. simpl in Hlen. lia.
  - destruct (String.eqb a "-ip" || String.eqb a "--ip-address").
    + destruct args' as [|v args'']; [reflexivity|].
      destruct (CliArguments.is_value v); [|reflexivity].
      apply IH; [simpl in Hlen; lia|auto].
    + destruct (CliArguments.joined_value "--units=" "-u=" a) as [v|].
      * apply Hset. lia.
      * destruct (CliArguments.joined_value "--ip-address=" "-ip=" a) as [v|];
          [|reflexivity].
        apply IH; [lia|auto].
Qed.

Lemma parse_outcome (args : list string) :
  match CliArguments.parse args with
  | Ok o =>
      CliArguments.units o = "celsius" \/ CliArguments.units o = "fahrenheit"
  | Raise e => e = SystemExit 2
  end.
Proof.
  apply (parse_args_invariant
           (fun o => CliArguments.units o = "celsius"
                     \/ CliArguments.units o = "fahrenheit")
           (fun acc v Hacc => Hacc) (fun acc v _ Hv => Hv)
           (List.length args) args
           (CliArguments.Options None CliArguments.default_units)
           (Nat.le_refl _) (or_intror eq_refl)).
Qed.


(** ** [Weather.run]: every run *)

Lemma validate_raises (a : string) (e : exn) :
  PublicIPAddress.validate a = Raise e ->
  e = IPAddressException ("Incorrect ip v4 address " +:+ a).
Proof.
  unfold PublicIPAddress.validate.
  destruct (Re.match_ IPV4_RE a); [discriminate|].
  rewrite format_invalid_address. now intros [= <-].
Qed.

Lemma validate_ok (a : string) (b : bool) :
  PublicIPAddress.validate a = Ok b -> b = true.
Proof.
  unfold PublicIPAddress.validate.
  destruct (Re.match_ IPV4_RE a); [now intros [= <-]|].
  rewrite format_invalid_address. discriminate.
Qed.

(** The address that [run] looks up: the one given, validated, without any
    request; or, when none is given, the answer of the address service. *)
Lemma resolve_address_cases (w : world) (ip : option string) :
  let answer := text (requests_get w PublicIPAddress.url None) in
  match ip with
  | Some (String c a) =>
      (PublicIPAddress.validate (String c a) = Ok true
       /\ Weather.resolve_address w ip = ([], Ok ip))
      \/ Weather.resolve_address w ip
         = ([], Raise (IPAddressException
                         ("Incorrect ip v4 address " +:+ String c a)))
  | _ =>
      (PublicIPAddress.validate answer = Ok true
       /\ Weather.resolve_address w ip
          = ([Get PublicIPAddress.url None], Ok (Some answer)))
      \/ Weather.resolve_address w ip
         = ([Get PublicIPAddress.url None],
            Raise (IPAddressException ("Incorrect ip v4 address " +:+ answer)))
  end.
Proof.
  intros answer.
  assert (Hpublic :
    (PublicIPAddress.validate answer = Ok true
     /\ PublicIPAddress.resolve w
        = ([Get PublicIPAddress.url None], Ok (Some answer)))
    \/ PublicIPAddress.resolve w
       = ([Get PublicIPAddress.url None],
          Raise (IPAddressException ("Incorrect ip v4 address " +:+ answer)))).
  { unfold PublicIPAddress.resolve, IO.get, IO.lift, IO.ret, IO.bind.
    fold answer.
    destruct (PublicIPAddress.validate answer) as [b|e] eqn:E.
    - left. apply validate_ok in E as E'. subst b. now split.
    - right. now rewrite (validate_raises _ _ E). }
  destruct ip as [[|c a]|]; try exact Hpublic.
  unfold Weather.resolve_address, IO.lift, IO.ret, IO.bind. cbn [Weather.not_ip].
  destruct (PublicIPAddress.validate (String c a)) as [b|e] eqn:E.
  - left. apply validate_ok in E as E'. subst b. now split.
  - right. now rewrite (validate_raises _ _ E).
Qed.

(** The exceptions that leave [now] through [run]'s handler are those of
    the interpreter. *)
Lemma read_response_raises (r : response) (e : exn) :
  OpenWeatherMap.read_response TextFormatter.output r = Raise e ->
  (exists msg, e = WeatherDataException msg)
  \/ e = IndexError \/ e = TypeError \/ e = ValueError \/ e = OverflowError
  \/ e = AttributeError.
Proof.
  unfold OpenWeatherMap.read_response.
  destruct (json r) as [v|]; simpl; [|intros [= <-]; eauto].
  destruct (OpenWeatherMap.read_context v) as [[t c ic]|e'] eqn:E; simpl.
  - unfold TextFormatter.output. simpl.
    destruct c; simpl; intros [= <-]; tauto.
  - destruct (read_context_raises v e' E) as [->|[->|[->|[->| ->]]]]; simpl;
      intros [= <-]; eauto 7.
Qed.


Lemma run_unresolved (w : world) (args : CliArguments.options)
  (tr : list event) (e : exn) :
  CliArguments.parse (argv w) = Ok args ->
  Weather.resolve_address w (CliArguments.ip args) = (tr, Raise e) ->
  Weather.run w = (tr, Raise e).
Proof.
  intros Hargs Haddr. unfold Weather.run. rewrite Hargs.
  unfold IO.lift at 1. unfold IO.bind at 1. rewrite Haddr. reflexivity.
Qed.

Section Resolved.

Variables (w : world) (args : CliArguments.options) (tr : list event)
  (addr : option string).
Hypothesis Hargs : CliArguments.parse (argv w) = Ok args.
Hypothesis Haddr :
  Weather.resolve_address w (CliArguments.ip args) = (tr, Ok addr).

Lemma run_without_match :
  geolite2_lookup w addr = None ->
  Weather.run w = (tr, Raise (IPAddressException "Incorrect ip address")).
Proof.
  intros Hmatch. rewrite (run_resolved w args tr addr Hargs Haddr).
  unfold IO.bind at 1. rewrite Hmatch. unfold IO.raise.
  now rewrite app_nil_r.
Qed.

Variables (loc : Q * Q) (tr' : list event).
Hypothesis Hmatch : geolite2_lookup w addr = Some loc.

Lemma run_printed (line color : string) :
  OpenWeatherMap.now w TextFormatter.output (fst loc) (snd loc)
    (CliArguments.units args) = (tr', Ok line) ->
  get_temperature_color line = Ok color ->
  Weather.run w = (tr ++ tr' ++ [Puts color line], Ok tt).
Proof.
  intros Hnow Hcolor. rewrite (run_resolved w args tr addr Hargs Haddr).
  unfold IO.bind at 1. rewrite Hmatch, Hnow.
  unfold IO.catch, IO.bind, IO.lift, IO.emit. rewrite Hcolor.
  cbn [app]. now rewrite ?app_nil_r.
Qed.

Lemma run_apology (msg : string) :
  OpenWeatherMap.now w TextFormatter.output (fst loc) (snd loc)
    (CliArguments.units args) = (tr', Raise (WeatherDataException msg)) ->
  Weather.run w
  = (tr ++ tr' ++ [PrintStderr ("Something bad happens(" +:+ msg
                                  +:+ "), Please try again later.")],
     Raise (SystemExit 1)).
Proof.
  intros Hnow. rewrite (run_resolved w args tr addr Hargs Haddr).
  unfold IO.bind at 1. rewrite Hmatch, Hnow.
  unfold IO.catch, IO.bind, IO.lift, IO.emit, IO.raise.
  rewrite format_apology. cbn [app]. now rewrite ?app_nil_r.
Qed.

Lemma run_uncaught (e : exn) :
  OpenWeatherMap.now w TextFormatter.output (fst loc) (snd loc)
    (CliArguments.units args) = (tr', Raise e) ->
  (forall msg, e <> WeatherDataException msg) ->
  Weather.run w = (tr ++ tr', Raise e).
Proof.
  intros Hnow He. rewrite (run_resolved w args tr addr Hargs Haddr).
  unfold IO.bind at 1. rewrite Hmatch, Hnow.
  unfold IO.catch, IO.bind.
  destruct e; try reflexivity. now destruct (He message).
Qed.

End Resolved.


Lemma urls_differ : PublicIPAddress.url <> OpenWeatherMap.url.
Proof. discriminate. Qed.




(** ** [Weather.run]: the address *)

(** X8. With an address on the command line that [validate] rejects, [run]
    raises the [IPAddressException] that carries the address, and it has
    made no request and printed nothing: neither the address service, the
    database nor the weather service is consulted. *)
Theorem run_rejects_given_address (w : world) (c : ascii) (a units : string)
  (Hargs : CliArguments.parse (argv w)
           = Ok (CliArguments.Options (Some (String c a)) units))
  (Hbad : ~ (dotted_quad (String c a) \/ dotted_quad_newline (String c a))) :
  Weather.run w
  = ([], Raise (IPAddressException ("Incorrect ip v4 address " +:+ String c a))).
Proof.
  apply (run_unresolved w _ [] _ Hargs).
  cbn [CliArguments.ip].
  destruct (resolve_address_cases w (Some (String c a))) as [[Hok _]|H];
    [|exact H].
  destruct (validate_characterisation (String c a)) as [_ Hno].
  rewrite (Hno Hbad) in Hok. discriminate.
Qed.

Lemma run_rejects_given_address_witness :
  Weather.run (sample_world (Some light_rain_body) ["-ip"; "300.1.1.1"])
  = ([], Raise (IPAddressException ("Incorrect ip v4 address " +:+ "300.1.1.1"))).
Proof.
  apply (run_rejects_given_address
           (sample_world (Some light_rain_body) ["-ip"; "300.1.1.1"])
           "3" "00.1.1.1" "fahrenheit"); [reflexivity|].
  intros H.
  apply (proj1 (validate_characterisation "300.1.1.1")) in H.
  vm_compute in H. discriminate.
Defined.

(** X9. With a non-empty address on the command line, [run] never asks the
    address service; without one, or with an empty one, its first request
    is to the address service. *)
Theorem run_asks_address_service_only_when_needed (w : world)
  (args : CliArguments.options)
  (Hargs : CliArguments.parse (argv w) = Ok args) :
  match CliArguments.ip args with
  | Some (String _ _) =>
      ~ In PublicIPAddress.url (Weather.requested (fst (Weather.run w)))
  | _ =>
      exists rest,
        Weather.requested (fst (Weather.run w)) = PublicIPAddress.url :: rest
  end.
Proof.
  assert (Hrest : exists rest,
             fst (Weather.run w)
             = fst (Weather.resolve_address w (CliArguments.ip args)) ++ rest
             /\ (Weather.requested rest = []
                 \/ Weather.requested rest = [OpenWeatherMap.url])).
  { destruct (Weather.resolve_address w (CliArguments.ip args))
      as [tr [addr|e]] eqn:Haddr.
    2:{ rewrite (run_unresolved w args tr e Hargs Haddr).
        exists []. split; [now rewrite app_nil_r|now left]. }
    destruct (geolite2_lookup w addr) as [loc|] eqn:Hmatch.
    2:{ rewrite (run_without_match w args tr addr Hargs Haddr Hmatch).
        exists []. split; [now rewrite app_nil_r|now left]. }
    destruct (OpenWeatherMap.now w TextFormatter.output (fst loc) (snd loc)
                (CliArguments.units args)) as [tr' [line|e]] eqn:Hnow.
    - destruct (get_temperature_color_total line) as (color & Hcolor & _).
      rewrite (run_printed w args tr addr Hargs Haddr loc tr' Hmatch line color
                 Hnow Hcolor).
      exists (tr' ++ [Puts color line]). split; [reflexivity|].
      rewrite requested_app. simpl. rewrite app_nil_r.
      destruct (now_events_any w TextFormatter.output (fst loc) (snd loc)
                  (CliArguments.units args)) as [H|[p H]];
        rewrite Hnow in H; simpl in H; subst tr'; auto.
    - assert (Htr' : Weather.requested tr' = []
                     \/ Weather.requested tr' = [OpenWeatherMap.url]).
      { destruct (now_events_any w TextFormatter.output (fst loc) (snd loc)
                    (CliArguments.units args)) as [H|[p H]];
          rewrite Hnow in H; simpl in H; subst tr'; auto. }
      destruct e as [| | | | | |msg| |];
        try (rewrite (run_uncaught w args tr addr Hargs Haddr loc tr' Hmatch
                        _ Hnow) by discriminate;
             exists tr'; split; [reflexivity|exact Htr']).
      rewrite (run_apology w args tr addr Hargs Haddr loc tr' Hmatch msg Hnow).
      eexists. split; [reflexivity|].
      rewrite requested_app. simpl. now rewrite app_nil_r. }
  destruct Hrest as (rest & Hrun & Hreq). rewrite Hrun, requested_app.
  pose proof (resolve_address_cases w (CliArguments.ip args)) as Hres.
  cbv zeta in Hres.
  destruct (CliArguments.ip args) as [[|c a]|];
    destruct Hres as [[_ ->]| ->]; cbn [fst Weather.requested flat_map app];
    try (eexists; reflexivity);
    destruct Hreq as [-> | ->]; simpl; intros H;
    repeat (destruct H as [H|H]); try exact H;
    now apply urls_differ.
Qed.

Lemma run_asks_address_service_only_when_needed_witness :
  ~ In PublicIPAddress.url
      (Weather.requested
         (fst (Weather.run (sample_world (Some light_rain_body)
                              ["-ip"; "8.8.8.8"])))).
Proof.
  apply (run_asks_address_service_only_when_needed
           (sample_world (Some light_rain_body) ["-ip"; "8.8.8.8"])
           (CliArguments.Options (Some "8.8.8.8") "fahrenheit")).
  reflexivity.
Defined.

(** ** [OpenWeatherMap.now]: what it returns and raises *)

(** X10. For units that are mapped, [now] raises [WeatherDataException]
    exactly in two cases: the body is not JSON, with the message
    "Incorrect json response"; or reading the temperature, the description
    and the icon code raises [KeyError], with the message
    "No conditions reported for your search". *)
Theorem now_raises_WeatherDataException_iff (w : world) (lat lon : Q)
  (u m msg : string)
  (Hu : OpenWeatherMap.MAPPING_UNITS !! u = Some m) :
  let r := requests_get w OpenWeatherMap.url (Some (Payload lat lon m)) in
  snd (OpenWeatherMap.now w TextFormatter.output lat lon u)
  = Raise (WeatherDataException msg)
  <-> (json r = None /\ msg = "Incorrect json response")
      \/ (exists v, json r = Some v
                    /\ OpenWeatherMap.read_context v = Raise KeyError
                    /\ msg = "No conditions reported for your search").
Proof.
  intros r. rewrite (now_mapped w _ lat lon u m Hu). cbn [snd]. fold r.
  apply read_response_WeatherDataException.
Qed.

Lemma now_raises_WeatherDataException_iff_witness :
  snd (OpenWeatherMap.now (sample_world (Some no_weather_body) [])
         TextFormatter.output (40 # 1) (- 75 # 1) "celsius")
  = Raise (WeatherDataException "No conditions reported for your search").
Proof.
  apply (proj2 (now_raises_WeatherDataException_iff
                  (sample_world (Some no_weather_body) [])
                  (40 # 1) (- 75 # 1) "celsius" "metric"
                  "No conditions reported for your search" eq_refl)).
  right. exists no_weather_body. repeat split.
Defined.

(** X11. When the three entries are read and the description is not a
    text, [now] raises [AttributeError] (from [lower]), which is not the
    [WeatherDataException] that [run] catches. *)
Theorem now_description_not_text (w : world) (lat lon : Q) (u m : string)
  (body conditions : Json.value) (t : Z) (ic : Py.value)
  (Hu : OpenWeatherMap.MAPPING_UNITS !! u = Some m)
  (Hjson : json (requests_get w OpenWeatherMap.url (Some (Payload lat lon m)))
           = Some body)
  (Hcontext : OpenWeatherMap.read_context body = Ok (Context t conditions ic))
  (Hnot : forall s, conditions <> Json.Str s) :
  OpenWeatherMap.now w TextFormatter.output lat lon u
  = ([Get OpenWeatherMap.url (Some (Payload lat lon m))], Raise AttributeError).
Proof.
  rewrite (now_mapped w _ lat lon u m Hu). f_equal.
  unfold OpenWeatherMap.read_response. rewrite Hjson. simpl.
  rewrite Hcontext. simpl. unfold TextFormatter.output. simpl.
  destruct conditions; try reflexivity. now destruct (Hnot s).
Qed.

Lemma now_description_not_text_witness :
  OpenWeatherMap.now
    (sample_world
       (Some (json_object
                [("main", json_object [("temp", Json.Number 55)]);
                 ("weather",
                  Json.Array [json_object [("description", Json.Null);
                                           ("icon", Json.Str "10d")]])])) [])
    TextFormatter.output (40 # 1) (- 75 # 1) "fahrenheit"
  = ([Get OpenWeatherMap.url (Some (Payload (40 # 1) (- 75 # 1) "imperial"))],
     Raise AttributeError).
Proof.
  apply (now_description_not_text _ _ _ "fahrenheit" "imperial"
           (json_object
              [("main", json_object [("temp", Json.Number 55)]);
               ("weather",
                Json.Array [json_object [("description", Json.Null);
                                         ("icon", Json.Str "10d")]])])
           Json.Null 55 (Py.Str RAIN));
    try reflexivity. discriminate.
Defined.

(** ** [Weather.run]: the line it prints *)



(** X13. Once the arguments are parsed and the address is resolved and
    located, [run] always asks the weather service, for the coordinates of
    the location as the database gave them and in the units "imperial" or
    "metric": the [KeyError] of [MAPPING_UNITS] cannot occur in a run. *)
Theorem run_located_asks_weather (w : world)
  (args : CliArguments.options) (tr : list event) (addr : option string)
  (loc : Q * Q)
  (Hargs : CliArguments.parse (argv w) = Ok args)
  (Haddr : Weather.resolve_address w (CliArguments.ip args) = (tr, Ok addr))
  (Hmatch : geolite2_lookup w addr = Some loc) :
  exists m rest,
    (m = "imperial" \/ m = "metric")
    /\ OpenWeatherMap.MAPPING_UNITS !! CliArguments.units args = Some m
    /\ fst (Weather.run w)
       = tr ++ Get OpenWeatherMap.url (Some (Payload (fst loc) (snd loc) m))
               :: rest.
Proof.
  pose proof (parse_outcome (argv w)) as Hunits. rewrite Hargs in Hunits.
  assert (Hm : exists m, (m = "imperial" \/ m = "metric")
                         /\ OpenWeatherMap.MAPPING_UNITS !! CliArguments.units args
                            = Some m).
  { destruct Hunits as [-> | ->];
      [exists "metric"|exists "imperial"]; split; auto. }
  destruct Hm as (m & Hm & Hu). exists m.
  pose proof (now_mapped w TextFormatter.output (fst loc) (snd loc) _ m Hu)
    as Hnow.
  destruct (OpenWeatherMap.read_response TextFormatter.output _)
    as [line|e] eqn:E.
  - destruct (get_temperature_color_total line) as (color & Hcolor & _).
    rewrite (run_printed w args tr addr Hargs Haddr loc _ Hmatch line color
               Hnow Hcolor).
    eexists. repeat split; [exact Hm|exact Hu].
  - destruct (read_response_raises _ _ E) as [[msg ->]|He].
    + rewrite (run_apology w args tr addr Hargs Haddr loc _ Hmatch msg Hnow).
      eexists. repeat split; [exact Hm|exact Hu].
    + rewrite (run_uncaught w args tr addr Hargs Haddr loc _ Hmatch e Hnow).
      * eexists. repeat split; [exact Hm|exact Hu].
      * intros msg ->. destruct He as [?|[?|[?|[?|?]]]]; discriminate.
Qed.

Lemma run_located_asks_weather_witness :
  exists m rest,
    (m = "imperial" \/ m = "metric")
    /\ OpenWeatherMap.MAPPING_UNITS
         !! CliArguments.units (CliArguments.Options None "fahrenheit") = Some m
    /\ fst (Weather.run (sample_world None []))
       = [Get PublicIPAddress.url None]
           ++ Get OpenWeatherMap.url
                (Some (Payload (fst (40 # 1, - 75 # 1)%Q) (snd (40 # 1, - 75 # 1)%Q) m))
              :: rest.
Proof.
  apply (run_located_asks_weather (sample_world None [])
           (CliArguments.Options None "fahrenheit")
           [Get PublicIPAddress.url None] (Some "8.8.8.8") (40 # 1, - 75 # 1)%Q);
    vm_compute; reflexivity.
Defined.
